(** * Pose evaluation and adaptation pipeline of the gaara backend

    A shallow embedding of the algorithmic core under
    [src/gaara/backend/core]:

    - [physics_engine.py]    : [YogaPhysicsEngine]
    - [rule_engine.py]       : [SuryaNamaskarRuleEngine]
    - [safety_engine.py]     : [SafetyAdaptationEngine.adapt_rules]
    - [correction_engine.py] : [YogaCorrectionEngine.generate_corrections]
    - [progress_tracker.py]  : [YogaProgressTracker]

    and of the two callers around it, [app/session_manager.py]
    ([StatelessSessionManager]) and [ai/llm_coaching_engine.py]
    ([LLMCoachingEngine.generate_coaching]).

    Modelling conventions.

    - A Python [dict] with string keys is a [gmap string _].  Every loop
      over a dict in these files either maps the values key by key or
      stops at the first offending value, so the insertion order of the
      dict is not observable in the results modelled here.
    - Python [int] and [float] values are exact rationals ([Q]); numeric
      equality is [Qeq] (written [==]).  [True]/[False] count as [1]/[0]
      wherever Python treats [bool] as an [int].  A float64 value is the
      rational it denotes, so a comparison of two floats is the
      comparison of two rationals; sums, differences, quotients and
      means of floats are rounded by the program and exact here.
    - Where the rounding of an operation can decide a test, either the
      operation is an argument of the function, so that what is proved
      holds for the rounded operation as well ([float64_ops], used by
      the fatigue test of the tracker), or the statement about the test
      is one that does not depend on the rounding: for the hip rule,
      whose midpoints [(a + b) / 2] are exact here, the statements
      either relate functions that compare the same two midpoints, or
      are about landmark coordinates that put the midpoints in the same
      order however the two sums are rounded.
    - A subscript [d[k]] on a dict raises [KeyError]; functions that use
      it return an [outcome].
    - The JSON knowledge bases are not part of the sources; they are
      arguments, typed by the fields each engine reads from them. *)

From Stdlib Require Import QArith Qround Qminmax Lqa.
From stdpp Require Import gmap strings list fin_maps.

Local Open Scope string_scope.
Local Open Scope list_scope.

(** ** Python-level helpers *)

(** [sub in s] on strings. *)
Fixpoint contains (sub s : string) : bool :=
  String.prefix sub s ||
  match s with
  | EmptyString => false
  | String _ s' => contains sub s'
  end.

Definition Qleb (x y : Q) : bool := Qle_bool x y.
Definition Qltb (x y : Q) : bool := negb (Qle_bool y x).

Definition Q_of_nat (n : nat) : Q := inject_Z (Z.of_nat n).

(** [round(x, 2)]: nearest multiple of [1/100], ties to the even one. *)
Definition py_round2 (x : Q) : Q :=
  let y := (x * 100)%Q in
  let f := Qfloor y in
  let r := (y - inject_Z f)%Q in
  let n :=
    if Qltb r (1 # 2) then f
    else if Qltb (1 # 2) r then (f + 1)%Z
    else if Z.even f then f else (f + 1)%Z in
  (n # 100)%Q.

(** [int(x)]: truncation towards zero. *)
Definition py_int (x : Q) : Z := Z.quot (Qnum x) (Z.pos (Qden x)).

Definition Qsum (l : list Q) : Q := foldr Qplus 0%Q l.

(** [np.mean] of a non-empty list. *)
Definition np_mean (l : list Q) : Q := (Qsum l / Q_of_nat (length l))%Q.

(** [np.var]: population variance. *)
Definition np_var (l : list Q) : Q :=
  let m := np_mean l in
  np_mean ((fun x => (x - m) * (x - m))%Q <$> l).

(** [l[-n:]] for [n > 0]. *)
Definition last_n {A} (n : nat) (l : list A) : list A :=
  drop (length l - n) l.

(** [collections.deque(maxlen=n).append]. *)
Definition deque_append {A} (maxlen : nat) (d : list A) (x : A) : list A :=
  if decide (maxlen ≤ length d)%nat then tail d ++ [x] else d ++ [x].

(** Exceptions raised by the modelled code. *)
Inductive exn : Type :=
  | KeyError (key : string).

Inductive outcome (A : Type) : Type :=
  | Return (a : A)
  | Raise (e : exn).
Arguments Return {A} a.
Arguments Raise {A} e.

#[global] Instance outcome_ret : MRet outcome := fun A a => Return a.
#[global] Instance outcome_bind : MBind outcome := fun A B k m =>
  match m with
  | Return a => k a
  | Raise e => Raise e
  end.

(** [d[k]] *)
Definition getitem {V} (d : gmap string V) (k : string) : outcome V :=
  match d !! k with
  | Some v => Return v
  | None => Raise (KeyError k)
  end.

(** ** physics_engine.py *)

Module PhysicsEngine.

(** The loop of [validate_angles] over [angles.items()]. *)
Fixpoint validate_items (items : list (string * Q)) : bool :=
  match items with
  | [] => true
  | (_, angle_value) :: rest =>
      if negb (Qleb 0 angle_value && Qleb angle_value 180) then false
      else validate_items rest
  end.

Definition validate_angles (angles : gmap string Q) : bool :=
  validate_items (map_to_list angles).

End PhysicsEngine.

(** ** rule_engine.py *)

Module RuleEngine.

(** A rule value is a numeric threshold or a boolean flag. *)
Inductive rule_value : Type :=
  | RNum (q : Q)
  | RBool (b : bool).

(** The number a rule value stands for in arithmetic and comparisons. *)
Definition num_of (v : rule_value) : Q :=
  match v with
  | RNum q => q
  | RBool b => if b then 1%Q else 0%Q
  end.

(** Truthiness of a rule value. *)
Definition truthy (v : rule_value) : bool :=
  match v with
  | RNum q => negb (Qeq_bool q 0)
  | RBool b => b
  end.

(** A landmark: the three coordinates of one body point (the request
    model accepts a landmark only with exactly three coordinates). *)
Record point : Type := Point { px : Q; py : Q; pz : Q }.

Definition point_add (a b : point) : point :=
  Point (px a + px b) (py a + py b) (pz a + pz b).
Definition point_div (a : point) (d : Q) : point :=
  Point (px a / d) (py a / d) (pz a / d).

Definition _get_default_rules (pose_name : string) : gmap string rule_value :=
  let rules_map : gmap string (gmap string rule_value) :=
    {[ "parvatasana" :=
         {[ "knee_angle_min" := RNum 170;
            "elbow_angle_min" := RNum 170;
            "hip_height_above_shoulder" := RBool true;
            "heel_height_max" := RNum (5 # 100) ]};
       "hasta_uttanasana" :=
         {[ "elbow_angle_min" := RNum 165;
            "spine_extension_min" := RNum 10;
            "arms_overhead" := RBool true ]};
       "bhujangasana" :=
         {[ "elbow_angle_min" := RNum 150;
            "spine_extension_min" := RNum 15;
            "pelvis_grounded" := RBool true ]};
       "ashwa_sanchalanasana" :=
         {[ "front_knee_angle_min" := RNum 80;
            "front_knee_angle_max" := RNum 110;
            "back_knee_angle_min" := RNum 160;
            "spine_extension_min" := RNum 10 ]};
       "pranamasana" :=
         {[ "spine_vertical" := RBool true;
            "feet_together" := RBool true ]} ]} in
  default ∅ (rules_map !! pose_name).

(** The local variables of [evaluate_pose]. *)
Record eval_state : Type := EvalState {
  st_issues : list string;
  st_passed_rules : gmap string bool;
  st_failed_rules : gmap string bool;
  st_total_rules : nat;
  st_passed_count : nat
}.

Definition eval_init : eval_state := EvalState [] ∅ ∅ 0 0.

(** The dictionary [evaluate_pose] returns. *)
Record evaluation : Type := Evaluation {
  issues : list string;
  alignment_score : Q;
  passed_rules : gmap string bool;
  failed_rules : gmap string bool
}.

(** "Evaluate knee angles" *)
Definition eval_knees (joint_angles : gmap string Q)
    (rules : gmap string rule_value) (st : eval_state) : outcome eval_state :=
  match rules !! "knee_angle_min" with
  | None => Return st
  | Some threshold =>
      let total := st_total_rules st + 2 in
      l ← getitem joint_angles "left_knee_angle";
      let left_knee_pass := Qleb (num_of threshold) l in
      r ← getitem joint_angles "right_knee_angle";
      let right_knee_pass := Qleb (num_of threshold) r in
      if left_knee_pass && right_knee_pass then
        Return (EvalState (st_issues st)
                  (<["knees_extended" := true]> (st_passed_rules st))
                  (st_failed_rules st)
                  total (st_passed_count st + 2))
      else
        Return (EvalState (st_issues st ++ ["knees_bent"])
                  (st_passed_rules st)
                  (<["knees_extended" := false]> (st_failed_rules st))
                  total (st_passed_count st))
  end.

(** "Evaluate elbow angles" *)
Definition eval_elbows (joint_angles : gmap string Q)
    (rules : gmap string rule_value) (st : eval_state) : outcome eval_state :=
  match rules !! "elbow_angle_min" with
  | None => Return st
  | Some threshold =>
      let total := st_total_rules st + 2 in
      l ← getitem joint_angles "left_elbow_angle";
      let left_elbow_pass := Qleb (num_of threshold) l in
      r ← getitem joint_angles "right_elbow_angle";
      let right_elbow_pass := Qleb (num_of threshold) r in
      if left_elbow_pass && right_elbow_pass then
        Return (EvalState (st_issues st)
                  (<["elbows_extended" := true]> (st_passed_rules st))
                  (st_failed_rules st)
                  total (st_passed_count st + 2))
      else
        Return (EvalState (st_issues st ++ ["elbows_bent"])
                  (st_passed_rules st)
                  (<["elbows_extended" := false]> (st_failed_rules st))
                  total (st_passed_count st))
  end.

(** "Evaluate hip height" *)
Definition eval_hips (landmarks_dict : gmap string point)
    (rules : gmap string rule_value) (st : eval_state) : outcome eval_state :=
  match rules !! "hip_height_above_shoulder" with
  | None => Return st
  | Some flag =>
      if truthy flag then
        let total := st_total_rules st + 1 in
        lh ← getitem landmarks_dict "left_hip";
        rh ← getitem landmarks_dict "right_hip";
        let mid_hip := point_div (point_add lh rh) 2 in
        ls ← getitem landmarks_dict "left_shoulder";
        rs ← getitem landmarks_dict "right_shoulder";
        let mid_shoulder := point_div (point_add ls rs) 2 in
        let hip_above_shoulder := Qltb (py mid_hip) (py mid_shoulder) in
        if hip_above_shoulder then
          Return (EvalState (st_issues st)
                    (<["hip_elevation" := true]> (st_passed_rules st))
                    (st_failed_rules st)
                    total (st_passed_count st + 1))
        else
          Return (EvalState (st_issues st ++ ["hips_low"])
                    (st_passed_rules st)
                    (<["hip_elevation" := false]> (st_failed_rules st))
                    total (st_passed_count st))
      else Return st
  end.

(** "Calculate alignment score" and build the result. *)
Definition eval_finish (st : eval_state) : evaluation :=
  let alignment_score :=
    if decide (0 < st_total_rules st)%nat then
      (Q_of_nat (st_passed_count st) / Q_of_nat (st_total_rules st) * 100)%Q
    else 0%Q in
  Evaluation (st_issues st) (py_round2 alignment_score)
             (st_passed_rules st) (st_failed_rules st).

Definition evaluate_pose (pose_name : string)
    (landmarks_dict : gmap string point) (joint_angles : gmap string Q)
    (rules : gmap string rule_value) : outcome evaluation :=
  st ← eval_knees joint_angles rules eval_init;
  st ← eval_elbows joint_angles rules st;
  st ← eval_hips landmarks_dict rules st;
  Return (eval_finish st).

(** One entry of the pose sequence in the rules knowledge base: a JSON
    object, of which the engine reads the field [asana]. *)
Abbreviation sequence_entry := (gmap string string).

(** The rules knowledge base, as deep as [get_pose_rules] reads it:
    [knowledge_base['surya_namaskar']['chakras']['sequence']]. *)
Abbreviation rules_kb :=
  (gmap string (gmap string (gmap string (list sequence_entry)))).

(** The loop of [get_pose_rules] over the sequence. *)
Fixpoint find_pose (sequence : list sequence_entry) (pose_name : string)
    : outcome (gmap string rule_value) :=
  match sequence with
  | [] => Return ∅
  | pose :: rest =>
      asana ← getitem pose "asana";
      if bool_decide (asana = pose_name) then
        Return (_get_default_rules pose_name)
      else find_pose rest pose_name
  end.

Definition get_pose_rules (knowledge_base : rules_kb) (pose_name : string)
    : outcome (gmap string rule_value) :=
  let surya_namaskar := default ∅ (knowledge_base !! "surya_namaskar") in
  let sequence :=
    default [] (default ∅ (surya_namaskar !! "chakras") !! "sequence") in
  find_pose sequence pose_name.

(** [identify_pose]; the float literals [0.1] and [0.2] are taken as the
    rationals one tenth and two tenths. *)
Definition identify_pose (landmarks_dict : gmap string point) : outcome string :=
  lh ← getitem landmarks_dict "left_hip";
  rh ← getitem landmarks_dict "right_hip";
  let mid_hip := point_div (point_add lh rh) 2 in
  ls ← getitem landmarks_dict "left_shoulder";
  rs ← getitem landmarks_dict "right_shoulder";
  let mid_shoulder := point_div (point_add ls rs) 2 in
  if Qltb (py mid_hip) (py mid_shoulder - (1 # 10)) then Return "parvatasana"
  else
    lw ← getitem landmarks_dict "left_wrist";
    ls' ← getitem landmarks_dict "left_shoulder";
    if Qltb (py lw) (py ls' - (2 # 10)) then Return "hasta_uttanasana"
    else Return "pranamasana".

End RuleEngine.

(** ** physics_engine.py, the landmark functions *)

Module PhysicsLandmarks.
Import RuleEngine.

(** [convert_landmarks_to_numpy]: a list of three coordinates and the
    array made of it are both a [point]. *)
Definition convert_landmarks_to_numpy (landmarks : gmap string point)
    : gmap string point :=
  (fun coords => coords) <$> landmarks.

Definition compute_additional_metrics (landmarks_dict : gmap string point)
    : outcome (gmap string Q) :=
  lh ← getitem landmarks_dict "left_hip";
  rh ← getitem landmarks_dict "right_hip";
  let mid_hip := point_div (point_add lh rh) 2 in
  ls ← getitem landmarks_dict "left_shoulder";
  rs ← getitem landmarks_dict "right_shoulder";
  let mid_shoulder := point_div (point_add ls rs) 2 in
  Return {[ "hip_shoulder_height_diff" := (py mid_shoulder - py mid_hip)%Q ]}.

End PhysicsLandmarks.

(** ** models/user_profile.py *)

Record UserProfile : Type := {
  user_id : string;
  name : string;
  level : string;
  conditions : list string;
  age : option Z;
  flexibility_score : option Z;
  goals : list string
}.

(** ** safety_engine.py *)

Module SafetyEngine.
Import RuleEngine.

Record UserProfileManager : Type := {
  profile : UserProfile;
  _condition_set : gset string
}.

(** [UserProfileManager.__init__] *)
Definition new_manager (p : UserProfile) : UserProfileManager :=
  {| profile := p; _condition_set := list_to_set (conditions p) |}.

Definition get_conditions (m : UserProfileManager) : list string :=
  conditions (profile m).
Definition get_level (m : UserProfileManager) : string :=
  level (profile m).

(** One pose entry of the safety knowledge base: a JSON object, of
    which the engine reads the field [contraindications], a list of
    condition codes. *)
Abbreviation pose_data := (gmap string (list string)).

(** [self.level_adaptations] as built by [_init_condition_mappings].
    The table [condition_adaptations] built next to it is read by no
    method of the engine. *)
Definition level_adaptations : gmap string (gmap string Q) :=
  {[ "beginner" :=
       {[ "angle_tolerance" := 10%Q; "threshold_relaxation" := (10 # 100)%Q ]};
     "intermediate" :=
       {[ "angle_tolerance" := 5%Q; "threshold_relaxation" := 0%Q ]};
     "advanced" :=
       {[ "angle_tolerance" := (-5)%Q; "threshold_tightening" := (5 # 100)%Q ]} ]}.

(** The two [.get] calls by which [adapt_rules] reads the tolerance of a
    level: an unknown level has no entry, hence tolerance [0]. *)
Definition angle_tolerance_of (lvl : string) : Q :=
  let level_adaptation := default ∅ (level_adaptations !! lvl) in
  default 0%Q (level_adaptation !! "angle_tolerance").

Definition _get_pose_data (knowledge_base : gmap string pose_data)
    (pose_name : string) : option pose_data :=
  knowledge_base !! pose_name.

(** The loop of [_check_contraindications] over the user's conditions. *)
Fixpoint check_conditions (contraindications conds : list string)
    : bool * option string :=
  match conds with
  | [] => (true, None)
  | condition :: rest =>
      if bool_decide (condition ∈ contraindications) then
        (false, Some ("Pose contraindicated due to " +:+ condition))
      else check_conditions contraindications rest
  end.

Definition _check_contraindications (pd : pose_data)
    (user_profile_manager : UserProfileManager) : bool * option string :=
  let contraindications := default [] (pd !! "contraindications") in
  check_conditions contraindications (get_conditions user_profile_manager).

(** The dictionary [adapt_rules] returns; [reason] is [None] when the
    key is absent. *)
Record adaptation : Type := Adaptation {
  pose_allowed : bool;
  reason : option string;
  adapted_rules : gmap string rule_value;
  safety_modifications : list (option string);
  risk_level : string
}.

(** The body of the loop over [adapted_rules.items()].  A [bool] is an
    [int] for [isinstance(value, (int, float))]. *)
Definition adapt_value (angle_tolerance : Q) (key : string)
    (value : rule_value) : rule_value :=
  if contains "angle" key then
    if contains "min" key then RNum (num_of value - angle_tolerance)
    else RNum (num_of value + angle_tolerance)
  else value.

Definition adapt_rules (knowledge_base : gmap string pose_data)
    (pose_name : string) (base_rules : gmap string rule_value)
    (user_profile_manager : UserProfileManager) : adaptation :=
  match _get_pose_data knowledge_base pose_name with
  | None =>
      Adaptation true None base_rules [] "low"
  | Some pd =>
      if bool_decide (pd = ∅) then
        Adaptation true None base_rules [] "low"
      else
        let '(allowed, reason) :=
          _check_contraindications pd user_profile_manager in
        if negb allowed then
          Adaptation false reason ∅ [reason] "high"
        else
          let angle_tolerance :=
            angle_tolerance_of (get_level user_profile_manager) in
          let adapted_rules :=
            map_imap (fun key value =>
                        Some (adapt_value angle_tolerance key value))
                     base_rules in
          Adaptation true None adapted_rules [] "low"
  end.

End SafetyEngine.

(** ** correction_engine.py *)

Module CorrectionEngine.

(** One pose entry of the corrections knowledge base: a JSON object,
    of which the engine reads the field [correction_library], mapping
    issue codes to phrases. *)
Abbreviation pose_knowledge := (gmap string (gmap string string)).

Record corrections : Type := Corrections {
  pose_name : string;
  biomechanical_issues : list string;
  verbal_corrections : list string;
  priority_level : string
}.

(** "Map issues to corrections" *)
Fixpoint map_issues (correction_library : gmap string string)
    (issues : list string) : list string :=
  match issues with
  | [] => []
  | issue :: rest =>
      match correction_library !! issue with
      | Some phrase => phrase :: map_issues correction_library rest
      | None => map_issues correction_library rest
      end
  end.

Definition generate_corrections (knowledge_base : gmap string pose_knowledge)
    (pose : string) (issues : list string) : corrections :=
  match knowledge_base !! pose with
  | None =>
      Corrections pose issues ["Pose not found in knowledge base."] "low"
  | Some pk =>
      if bool_decide (pk = ∅) then
        Corrections pose issues ["Pose not found in knowledge base."] "low"
      else
        match issues with
        | [] =>
            Corrections pose []
              ["Excellent alignment. Maintain steady breathing."] "low"
        | _ =>
            let correction_library :=
              default ∅ (pk !! "correction_library") in
            Corrections pose issues
              (map_issues correction_library issues)
              (if decide (2 < length issues)%nat then "medium" else "low")
        end
  end.

End CorrectionEngine.

(** ** progress_tracker.py *)

Module ProgressTracker.

(** Modelled from the spec: the dataclass [FrameMetrics] of
  [models/pose_evaluation.py], which is not among the sources.  The
  spec lists its fields as pose name, alignment score, joint angles
  and timestamp; [update] reads the first three. *)
Record FrameMetrics : Type := {
pose_name : string;
alignment_score : Q;
joint_angles : gmap string Q;
timestamp : Q
}.

(** The attributes of [YogaProgressTracker] that the tracking methods
  read and write.  The two deques are lists with their [maxlen]
  enforced by [deque_append]; the session identifier is kept as the
  integer it is formatted from. *)
Record tracker : Type := Tracker {
session_id : option Z;
session_start_time : option Q;
frame_metrics_history : list FrameMetrics;
alignment_scores : list Q;
left_angles_history : list (gmap string Q);
right_angles_history : list (gmap string Q);
spine_extensions : list Q;
poses_performed : gset string;
fatigue_window : list Q;
fatigue_detected : bool
}.

(** The state [__init__] sets up. *)
Definition init : tracker :=
Tracker None None [] [] [] [] [] ∅ [] false.

(** [start_session]; [now] is the value of [time.time()]. *)
Definition start_session (now : Q) (t : tracker) : tracker :=
Tracker (Some (py_int now)) (Some now) [] [] [] [] [] ∅ [] false.

Definition key_has (sub : string) (kv : string * Q) : Prop :=
contains sub kv.1 = true.

#[global] Instance key_has_dec sub kv : Decision (key_has sub kv) :=
  decide (contains sub kv.1 = true).

Definition _track_angles (joint_angles : gmap string Q) (t : tracker) : tracker :=
let left_angles := filter (key_has "left") joint_angles in
let right_angles :=
  filter (fun kv => ¬ key_has "left" kv ∧ key_has "right" kv) joint_angles in
let left_hist :=
  if bool_decide (left_angles = ∅) then left_angles_history t
  else left_angles_history t ++ [left_angles] in
let right_hist :=
  if bool_decide (right_angles = ∅) then right_angles_history t
  else right_angles_history t ++ [right_angles] in
let spine :=
  match joint_angles !! "spine_angle" with
  | Some a => spine_extensions t ++ [(180 - a)%Q]
  | None => spine_extensions t
  end in
Tracker (session_id t) (session_start_time t) (frame_metrics_history t)
        (alignment_scores t) left_hist right_hist spine
        (poses_performed t) (fatigue_window t) (fatigue_detected t).

(** numpy's float64 arithmetic as far as the fatigue test uses it:
    [np.mean] of a list of scores and the subtraction in
    [first_half - 15].  Both round their result, and how they round is
    not fixed here: the functions are arguments of the tracker.  A
    float64 value is the rational it denotes, so the two comparisons of
    the test are exact. *)
Record float64_ops : Type := {
  f64_mean : list Q → Q;
  f64_sub : Q → Q → Q
}.

(** The arithmetic without rounding error; it agrees with float64
    wherever every intermediate result is representable. *)
Definition exact_ops : float64_ops :=
  {| f64_mean := np_mean; f64_sub := Qminus |}.

Definition _update_fatigue_detection (ops : float64_ops) (score : Q)
    (t : tracker) : tracker :=
  let window := deque_append 24 (fatigue_window t) score in
  let detected :=
    if decide (24 ≤ length window)%nat then
      let scores := window in
      let first_half := f64_mean ops (take 12 scores) in
      let second_half := f64_mean ops (drop 12 scores) in
      if Qltb 70 first_half && Qltb second_half (f64_sub ops first_half 15)
      then true
      else fatigue_detected t
    else fatigue_detected t in
  Tracker (session_id t) (session_start_time t) (frame_metrics_history t)
          (alignment_scores t) (left_angles_history t)
          (right_angles_history t) (spine_extensions t)
          (poses_performed t) window detected.

Definition update (ops : float64_ops) (frame_metrics : FrameMetrics)
    (t : tracker) : tracker :=
  let t1 :=
    Tracker (session_id t) (session_start_time t)
            (deque_append 1000 (frame_metrics_history t) frame_metrics)
            (alignment_scores t ++ [alignment_score frame_metrics])
            (left_angles_history t) (right_angles_history t)
            (spine_extensions t)
            ({[ pose_name frame_metrics ]} ∪ poses_performed t)
            (fatigue_window t) (fatigue_detected t) in
  let t2 := _track_angles (joint_angles frame_metrics) t1 in
  _update_fatigue_detection ops (alignment_score frame_metrics) t2.

(** A sequence of [update] calls, oldest frame first. *)
Definition updates (ops : float64_ops) (frames : list FrameMetrics)
    (t : tracker) : tracker :=
  foldl (fun t f => update ops f t) t frames.

(** The variances one side contributes in [compute_stability]. *)
Definition side_variances (angles_list : list (gmap string Q)) : list Q :=
let angle_keys : gset string := ⋃ (dom <$> angles_list) in
omap (fun key =>
        let values := omap (fun angles : gmap string Q => angles !! key) angles_list in
        if decide (10 ≤ length values)%nat then Some (np_var values) else None)
     (elements angle_keys).

Definition compute_stability (t : tracker) : Q :=
if decide (length (left_angles_history t) < 10)%nat then 0%Q
else
  let all_variances :=
    side_variances (last_n 50 (left_angles_history t)) ++
    side_variances (last_n 50 (right_angles_history t)) in
  match all_variances with
  | [] => 0%Q
  | _ =>
      let avg_variance := np_mean all_variances in
      let d := (100 - avg_variance)%Q in
      let stability_score := if Qltb 0 d then d else 0%Q in
      py_round2 stability_score
  end.

End ProgressTracker.

(** ** ai/llm_coaching_engine.py *)

Module LLMCoaching.

(** What the engine takes from outside: the chat completion call with
    the stripping of its answer ([None] when anything in the [try]
    block raises), and [str.capitalize]. *)
Record LLMCoachingEngine : Type := {
  chat_completion : string → option string;
  capitalize : string → string
}.

Definition issue_mappings : gmap string string :=
  {[ "knees_bent" := "straighten your knees gently";
     "elbows_bent" := "extend your elbows fully";
     "hips_low" := "lift your hips higher";
     "spine_misaligned" := "lengthen through your spine";
     "heels_lifted" := "press your heels toward the floor";
     "chest_collapsed" := "open your chest softly";
     "shoulders_elevated" := "relax your shoulders down";
     "back_knee_bent" := "extend your back leg fully";
     "front_knee_too_bent" := "avoid pushing your knee too far";
     "pelvis_lifted" := "keep your pelvis grounded" ]}.

(** [sep.join(l)] *)
Fixpoint py_join (sep : string) (l : list string) : string :=
  match l with
  | [] => ""
  | [x] => x
  | x :: rest => x +:+ sep +:+ py_join sep rest
  end.

Definition newline : string := String (Ascii.ascii_of_nat 10) EmptyString.

Definition _build_prompt (pose_name : string) (corrections : list string)
    (tone : string) : string :=
  let corrections_text := py_join newline ((fun c => "- " +:+ c) <$> corrections) in
  "Pose: " +:+ pose_name +:+ newline +:+
  "Issues detected:" +:+ newline +:+
  corrections_text +:+ newline +:+
  "Tone: " +:+ tone +:+ ", encouraging" +:+ newline +:+
  newline +:+
  "Generate ONE coaching sentence combining these corrections. Keep it under 20 words.".

(** [_fallback_generation]; [None] stands for the [IndexError] of a
    subscript beyond the end of [corrections]. *)
Definition _fallback_generation (engine : LLMCoachingEngine)
    (corrections : list string) : option string :=
  if decide (length corrections = 1%nat) then
    c0 ← corrections !! 0%nat;
    Some ("Try to " +:+ c0 +:+ ".")
  else if decide (length corrections = 2%nat) then
    c0 ← corrections !! 0%nat;
    c1 ← corrections !! 1%nat;
    Some (capitalize engine c0 +:+ " and " +:+ c1 +:+ ".")
  else
    c0 ← corrections !! 0%nat;
    c1 ← corrections !! 1%nat;
    c2 ← corrections !! 2%nat;
    Some (capitalize engine c0 +:+ ", " +:+ c1 +:+ ", and " +:+ c2 +:+ ".").

(** [generate_coaching]; [None] when an exception leaves the method. *)
Definition generate_coaching (engine : LLMCoachingEngine)
    (pose_name : string) (issues : list string) (tone : string)
    : option string :=
  match issues with
  | [] => Some "Excellent alignment. Maintain steady breathing."
  | _ =>
      let corrections :=
        (fun issue => default issue (issue_mappings !! issue)) <$> take 3 issues in
      let prompt := _build_prompt pose_name corrections tone in
      match chat_completion engine prompt with
      | Some sentence => Some sentence
      | None => _fallback_generation engine corrections
      end
  end.

End LLMCoaching.

(** ** app/session_manager.py *)

Module SessionManager.
Import RuleEngine SafetyEngine LLMCoaching.

(** The collaborators a [StatelessSessionManager] is built from, each
    stood for by the knowledge base it was loaded with. *)
Record StatelessSessionManager : Type := {
  rule_engine : rules_kb;
  safety_engine : gmap string pose_data;
  correction_engine : gmap string CorrectionEngine.pose_knowledge;
  llm_coaching_engine : option LLMCoachingEngine
}.

(** The dictionary [evaluate_pose] returns. *)
Record response : Type := Response {
  pose_name : string;
  pose_detected : bool;
  alignment_score : Q;
  issues : list string;
  coaching_sentence : string;
  risk_level : string
}.

Definition _error_response (message : string) : response :=
  Response "unknown" false 0 ["evaluation_error"] message "medium".

Definition _fallback_coaching (self : StatelessSessionManager)
    (pose : string) (issues : list string) : string :=
  match issues with
  | [] => "Excellent alignment. Maintain steady breathing."
  | _ =>
      let corrections :=
        CorrectionEngine.generate_corrections (correction_engine self) pose issues in
      let verbal_corrections := CorrectionEngine.verbal_corrections corrections in
      match verbal_corrections with
      | [] => "Focus on your alignment and breathing."
      | _ => py_join " " (take 2 verbal_corrections)
      end
  end.

Definition _generate_coaching_sentence (self : StatelessSessionManager)
    (pose : string) (issues : list string) : string :=
  match llm_coaching_engine self with
  | Some engine =>
      match generate_coaching engine pose issues "calm" with
      | Some sentence => sentence
      | None => _fallback_coaching self pose issues
      end
  | None => _fallback_coaching self pose issues
  end.

(** The [try] block of [evaluate_pose]. *)
Definition evaluate_pose_body (self : StatelessSessionManager)
    (pose : string) (angles : gmap string Q) (landmarks : gmap string point)
    (user_profile : UserProfile) : outcome response :=
  if negb (PhysicsEngine.validate_angles angles) then
    Return (_error_response "Invalid joint angles")
  else
    let numpy_landmarks := PhysicsLandmarks.convert_landmarks_to_numpy landmarks in
    base_rules ← get_pose_rules (rule_engine self) pose;
    if bool_decide (base_rules = ∅) then
      Return (_error_response ("Pose '" +:+ pose +:+ "' not found"))
    else
      let user_profile_manager := new_manager user_profile in
      let safety_result :=
        adapt_rules (safety_engine self) pose base_rules user_profile_manager in
      if negb (pose_allowed safety_result) then
        Return (Response pose true 0 ["pose_contraindicated"]
                  (default "This pose is not recommended." (reason safety_result))
                  (SafetyEngine.risk_level safety_result))
      else
        let adapted_rules := adapted_rules safety_result in
        evaluation ← RuleEngine.evaluate_pose pose numpy_landmarks angles adapted_rules;
        let issues := RuleEngine.issues evaluation in
        let alignment_score := RuleEngine.alignment_score evaluation in
        let coaching_sentence := _generate_coaching_sentence self pose issues in
        Return (Response pose true alignment_score issues coaching_sentence
                  (SafetyEngine.risk_level safety_result)).

(** [evaluate_pose]: any exception of the body becomes an error
    response. *)
Definition evaluate_pose (self : StatelessSessionManager)
    (pose : string) (angles : gmap string Q) (landmarks : gmap string point)
    (user_profile : UserProfile) : response :=
  match evaluate_pose_body self pose angles landmarks user_profile with
  | Return result => result
  | Raise _ => _error_response "Internal evaluation error"
  end.

End SessionManager.

(** ** Concrete inputs used in the examples below *)

Module Examples.
Import RuleEngine SafetyEngine.

Definition profile_of (lvl : string) (conds : list string) : UserProfile :=
  {| user_id := "u1"; name := "User"; level := lvl; conditions := conds;
     age := Some 30%Z; flexibility_score := None; goals := [] |}.

(** A safety knowledge base with two poses. *)
Definition safety_kb : gmap string pose_data :=
  {[ "parvatasana" := {[ "contraindications" := ["high_bp"; "heart_ailments"] ]};
     "hasta_uttanasana" := {[ "contraindications" := ["recent_spinal_surgery"] ]} ]}.

Definition knee_rule : gmap string rule_value :=
  {[ "knee_angle_min" := RNum 170 ]}.
Definition elbow_rule : gmap string rule_value :=
  {[ "elbow_angle_min" := RNum 170 ]}.

(** Both knees bent far below every adapted threshold. *)
Definition both_bent_knees : gmap string Q :=
  {[ "left_knee_angle" := 150%Q; "right_knee_angle" := 150%Q ]}.

(** Left knee straight, right knee bent. *)
Definition one_bent_knee : gmap string Q :=
  {[ "left_knee_angle" := 175%Q; "right_knee_angle" := 165%Q ]}.
Definition one_bent_elbow : gmap string Q :=
  {[ "left_elbow_angle" := 165%Q; "right_elbow_angle" := 175%Q ]}.

(** Hips high, shoulders low, left wrist on the floor. *)
Definition dog_landmarks : gmap string point :=
  {[ "left_hip" := Point (35 # 100) (3 # 10) 0;
     "right_hip" := Point (65 # 100) (3 # 10) 0;
     "left_shoulder" := Point (3 # 10) (6 # 10) 0;
     "right_shoulder" := Point (7 # 10) (6 # 10) 0;
     "left_wrist" := Point (1 # 10) (9 # 10) 0 ]}.


Definition hip_rule : gmap string rule_value :=
  {[ "hip_height_above_shoulder" := RBool true ]}.

(** A rules knowledge base whose sequence lists three poses, one of
    them without default rules. *)
Definition rules_kb_example : rules_kb :=
  {[ "surya_namaskar" :=
       {[ "chakras" :=
            {[ "sequence" :=
                 [ {[ "asana" := "pranamasana" ]};
                   {[ "asana" := "hasta_padasana" ]};
                   {[ "asana" := "parvatasana" ]} ] ]} ]} ]}.

(** A session manager without LLM engine and without corrections. *)
Definition manager_example : SessionManager.StatelessSessionManager :=
  {| SessionManager.rule_engine := rules_kb_example;
     SessionManager.safety_engine := safety_kb;
     SessionManager.correction_engine := ∅;
     SessionManager.llm_coaching_engine := None |}.

(** A frame with one knee angle on each side. *)
Definition two_sided_frame : ProgressTracker.FrameMetrics :=
  {| ProgressTracker.pose_name := "parvatasana";
     ProgressTracker.alignment_score := 80%Q;
     ProgressTracker.joint_angles :=
       {[ "left_knee_angle" := 170%Q; "right_knee_angle" := 168%Q ]};
     ProgressTracker.timestamp := 0%Q |}.

(** A frame that carries a left knee angle only. *)
Definition left_only_frame : ProgressTracker.FrameMetrics :=
  {| ProgressTracker.pose_name := "parvatasana";
     ProgressTracker.alignment_score := 80%Q;
     ProgressTracker.joint_angles := {[ "left_knee_angle" := 170%Q ]};
     ProgressTracker.timestamp := 0%Q |}.

(** A frame with the given alignment score and no angles. *)
Definition score_frame (score : Q) : ProgressTracker.FrameMetrics :=
  {| ProgressTracker.pose_name := "parvatasana";
     ProgressTracker.alignment_score := score;
     ProgressTracker.joint_angles := ∅;
     ProgressTracker.timestamp := 0%Q |}.

End Examples.

(** * Properties *)

(** ** Comparisons on rationals *)

Lemma Qleb_le (x y : Q) : Qleb x y = true ↔ (x <= y)%Q.
Proof. unfold Qleb. apply Qle_bool_iff. Qed.

Lemma Qltb_lt (x y : Q) : Qltb x y = true ↔ (x < y)%Q.
Proof.
  unfold Qltb. rewrite negb_true_iff. split; intros H.
  - apply Qnot_le_lt. intros Hle. apply Qle_bool_iff in Hle. congruence.
  - apply not_true_is_false. intros Hle. apply Qle_bool_iff in Hle.
    exact (Qlt_not_le _ _ H Hle).
Qed.

Lemma Qleb_false (x y : Q) : Qleb x y = false ↔ ¬ (x <= y)%Q.
Proof. rewrite <- Qleb_le. destruct (Qleb x y); split; congruence. Qed.

(** ** Angle validation *)

Section Validation.
Import PhysicsEngine.

Lemma validate_items_true (items : list (string * Q)) :
  validate_items items = true ↔
  Forall (fun kv : string * Q => (0 <= kv.2)%Q ∧ (kv.2 <= 180)%Q) items.
Proof.
  induction items as [|[k v] items IH]; simpl.
  - split; [constructor | reflexivity].
  - rewrite Forall_cons. simpl.
    destruct (Qleb 0 v) eqn:H0; destruct (Qleb v 180) eqn:H1; simpl;
      rewrite ?Qleb_le, ?Qleb_false in *; split;
      try tauto; try discriminate; rewrite <- ?IH; tauto.
Qed.

(** C9.  [validate_angles] answers [true] exactly when every value of
    the angle map lies in the closed interval from 0 to 180; hence one
    value outside the interval, under whatever key, makes it answer
    [false]. *)
Theorem validate_angles_iff_all_in_range (angles : gmap string Q) :
  (validate_angles angles = true ↔
     ∀ k v, angles !! k = Some v → (0 <= v)%Q ∧ (v <= 180)%Q) ∧
  (∀ k v, angles !! k = Some v → ¬ ((0 <= v)%Q ∧ (v <= 180)%Q) →
     validate_angles angles = false).
Proof.
  assert (Hiff : validate_angles angles = true ↔
            ∀ k v, angles !! k = Some v → (0 <= v)%Q ∧ (v <= 180)%Q).
  { unfold validate_angles. rewrite validate_items_true, Forall_forall.
    split.
    - intros H k v Hkv. apply (H (k, v)). by apply elem_of_map_to_list.
    - intros H [k v] Hin. apply elem_of_map_to_list in Hin. eauto. }
  split; [exact Hiff|].
  intros k v Hkv Hout.
  destruct (validate_angles angles) eqn:E; [|reflexivity].
  exfalso. apply Hout. apply (proj1 Hiff eq_refl k v Hkv).
Qed.

Lemma validate_angles_witness :
  validate_angles {[ "left_knee_angle" := 175%Q; "spine_angle" := 200%Q ]}
    = false.
Proof.
  apply (proj2 (validate_angles_iff_all_in_range _) "spine_angle" 200%Q).
  - reflexivity.
  - intros [_ H]. vm_compute in H. apply H. reflexivity.
Defined.

End Validation.

(** ** Correction mapping *)

Section Corrections.
Import CorrectionEngine.

(** C8, as the code has it.  For a pose with a non-empty entry in the
    corrections knowledge base, the priority is ["medium"] exactly when
    the issue list has more than two issues and ["low"] otherwise; for
    a pose without an entry (or with an empty one) the priority is
    ["low"] whatever the number of issues. *)
Theorem priority_level_by_issue_count
    (kb : gmap string pose_knowledge) (pose : string) (issues : list string) :
  (∀ pk, kb !! pose = Some pk → pk ≠ ∅ →
     (priority_level (generate_corrections kb pose issues) = "medium"
        ↔ (2 < length issues)%nat) ∧
     (¬ (2 < length issues)%nat →
        priority_level (generate_corrections kb pose issues) = "low")) ∧
  (kb !! pose = None ∨ kb !! pose = Some ∅ →
     priority_level (generate_corrections kb pose issues) = "low").
Proof.
  unfold generate_corrections. split.
  - intros pk Hpk Hne. rewrite Hpk.
    rewrite bool_decide_eq_false_2 by exact Hne.
    destruct issues as [|i issues]; simpl.
    + split; [split; [discriminate | lia] | reflexivity].
    + destruct (decide (2 < S (length issues))%nat) as [Hlt|Hge]; simpl.
      * split; [tauto | intros H; contradiction].
      * split; [split; [discriminate | intros; contradiction] | reflexivity].
  - intros [-> | ->]; [reflexivity|].
    rewrite bool_decide_eq_true_2; reflexivity.
Qed.

Lemma priority_level_witness :
  priority_level
    (generate_corrections
       {[ "parvatasana" :=
            {[ "correction_library" :=
                 {[ "knees_bent" := "Straighten your knees." ]} ]} ]}
       "parvatasana" ["knees_bent"; "elbows_bent"; "hips_low"]) = "medium".
Proof.
  eapply (proj1 (priority_level_by_issue_count _ _ _)).
  - apply lookup_singleton_eq.
  - apply map_non_empty_singleton.
  - simpl. lia.
Defined.

(** C8 as the spec words it fails for a pose that the knowledge base
    does not know: three issues, yet the priority is ["low"]. *)
Lemma priority_level_unknown_pose_counterexample :
  ¬ (priority_level
       (generate_corrections ∅ "parvatasana"
          ["knees_bent"; "elbows_bent"; "hips_low"]) = "medium"
     ↔ (2 < length ["knees_bent"; "elbows_bent"; "hips_low"])%nat).
Proof.
  intros [_ H]. assert (Hlt : (2 < 3)%nat) by lia.
  specialize (H Hlt). vm_compute in H. discriminate H.
Qed.

End Corrections.

(** ** Safety adaptation *)

Section Safety.
Import RuleEngine SafetyEngine Examples.

Lemma check_conditions_blocked (cl conds : list string) (c : string) :
  c ∈ conds → c ∈ cl →
  ∃ c', c' ∈ conds ∧ c' ∈ cl ∧
        check_conditions cl conds =
          (false, Some ("Pose contraindicated due to " +:+ c')).
Proof.
  induction conds as [|d conds IH]; intros Hin Hcl.
  - by apply elem_of_nil in Hin.
  - simpl. destruct (decide (d ∈ cl)) as [Hd|Hd].
    + rewrite bool_decide_eq_true_2 by exact Hd.
      exists d. split; [left | split; [exact Hd | reflexivity]].
    + rewrite bool_decide_eq_false_2 by exact Hd.
      apply elem_of_cons in Hin as [-> | Hin]; [contradiction|].
      destruct (IH Hin Hcl) as (c' & H1 & H2 & H3).
      exists c'. split; [by right | split; assumption].
Qed.

Lemma angle_tolerance_beginner : angle_tolerance_of "beginner" = 10%Q.
Proof. vm_compute. reflexivity. Qed.

Lemma angle_tolerance_intermediate : angle_tolerance_of "intermediate" = 5%Q.
Proof. vm_compute. reflexivity. Qed.

Lemma angle_tolerance_advanced : angle_tolerance_of "advanced" = (-5)%Q.
Proof. vm_compute. reflexivity. Qed.

Lemma angle_tolerance_unknown (lvl : string) :
  lvl ≠ "beginner" → lvl ≠ "intermediate" → lvl ≠ "advanced" →
  angle_tolerance_of lvl = 0%Q.
Proof.
  intros Hb Hi Ha. unfold angle_tolerance_of, level_adaptations.
  rewrite lookup_insert_ne by congruence.
  rewrite lookup_insert_ne by congruence.
  rewrite lookup_singleton_ne by congruence.
  reflexivity.
Qed.

(** What the loop of [adapt_rules] does to one rule. *)
Lemma adapt_value_cases (tol : Q) (k : string) (v : rule_value) :
  (contains "angle" k = true → contains "min" k = true →
     num_of (adapt_value tol k v) == num_of v - tol) ∧
  (contains "angle" k = true → contains "min" k = false →
     num_of (adapt_value tol k v) == num_of v + tol) ∧
  (contains "angle" k = false → adapt_value tol k v = v).
Proof.
  unfold adapt_value.
  repeat split; intros; repeat match goal with H : _ = _ |- _ => rewrite H end;
    reflexivity.
Qed.

(** An allowed pose with knowledge-base data: the returned rules are the
    base rules with [adapt_value] applied key by key. *)
Lemma adapt_rules_allowed_lookup
    (kb : gmap string pose_data) (pose : string)
    (base : gmap string rule_value) (upm : UserProfileManager)
    (pd : pose_data) (k : string) :
  kb !! pose = Some pd → pd ≠ ∅ →
  pose_allowed (adapt_rules kb pose base upm) = true →
  adapted_rules (adapt_rules kb pose base upm) !! k =
    adapt_value (angle_tolerance_of (get_level upm)) k <$> base !! k.
Proof.
  intros Hpd Hne. unfold adapt_rules, _get_pose_data. rewrite Hpd.
  rewrite bool_decide_eq_false_2 by exact Hne.
  destruct (_check_contraindications pd upm) as [[|] r]; simpl.
  - intros _. rewrite map_lookup_imap. by destruct (base !! k).
  - discriminate.
Qed.

(** A pose without (non-empty) data: the base rules come back as they
    are. *)
Lemma adapt_rules_no_data
    (kb : gmap string pose_data) (pose : string)
    (base : gmap string rule_value) (upm : UserProfileManager) :
  kb !! pose = None ∨ kb !! pose = Some ∅ →
  adapt_rules kb pose base upm = Adaptation true None base [] "low".
Proof.
  unfold adapt_rules, _get_pose_data. intros [-> | ->]; [reflexivity|].
  by rewrite bool_decide_eq_true_2.
Qed.

(** C10.  A pose name without an entry in the safety knowledge base is
    allowed with risk level ["low"], and the base rules are returned
    unmodified, whatever the level and the conditions of the user. *)
Theorem unknown_pose_rules_pass_through
    (kb : gmap string pose_data) (pose : string)
    (base : gmap string rule_value) (upm : UserProfileManager) :
  kb !! pose = None →
  pose_allowed (adapt_rules kb pose base upm) = true ∧
  risk_level (adapt_rules kb pose base upm) = "low" ∧
  adapted_rules (adapt_rules kb pose base upm) = base ∧
  safety_modifications (adapt_rules kb pose base upm) = [].
Proof.
  intros H. rewrite adapt_rules_no_data by (left; exact H).
  repeat split.
Qed.

Lemma unknown_pose_witness :
  adapted_rules
    (adapt_rules safety_kb "bhujangasana" (_get_default_rules "bhujangasana")
       (new_manager (profile_of "beginner" ["back_pain"])))
  = _get_default_rules "bhujangasana".
Proof.
  apply (unknown_pose_rules_pass_through safety_kb "bhujangasana").
  vm_compute. reflexivity.
Defined.

(** C4.  When the pose has data in the safety knowledge base and one of
    the user's condition codes is in its contraindication list, the
    pose is refused: [pose_allowed] is false, the risk level is
    ["high"], the adapted rules are empty, and the reason names the
    first contraindicated condition of the user. *)
Theorem contraindicated_pose_is_refused
    (kb : gmap string pose_data) (pose : string)
    (base : gmap string rule_value) (upm : UserProfileManager)
    (pd : pose_data) (cl : list string) (c : string) :
  kb !! pose = Some pd →
  pd !! "contraindications" = Some cl →
  c ∈ get_conditions upm → c ∈ cl →
  pose_allowed (adapt_rules kb pose base upm) = false ∧
  risk_level (adapt_rules kb pose base upm) = "high" ∧
  adapted_rules (adapt_rules kb pose base upm) = ∅ ∧
  ∃ c', c' ∈ get_conditions upm ∧ c' ∈ cl ∧
        reason (adapt_rules kb pose base upm) =
          Some ("Pose contraindicated due to " +:+ c').
Proof.
  intros Hpd Hcl Hc Hin.
  assert (Hne : pd ≠ ∅).
  { intros ->. by rewrite lookup_empty in Hcl. }
  unfold adapt_rules, _get_pose_data. rewrite Hpd.
  rewrite bool_decide_eq_false_2 by exact Hne.
  unfold _check_contraindications. rewrite Hcl. simpl.
  destruct (check_conditions_blocked cl _ c Hc Hin) as (c' & H1 & H2 & ->).
  simpl. repeat split. exists c'. repeat split; assumption.
Qed.

Lemma contraindicated_pose_witness :
  pose_allowed
    (adapt_rules safety_kb "parvatasana" (_get_default_rules "parvatasana")
       (new_manager (profile_of "beginner" ["back_pain"; "heart_ailments"])))
  = false.
Proof.
  eapply (proj1 (contraindicated_pose_is_refused safety_kb "parvatasana" _ _
                   {[ "contraindications" := ["high_bp"; "heart_ailments"] ]}
                   ["high_bp"; "heart_ailments"] "heart_ailments" _ _ _ _)).
  Unshelve.
  - apply lookup_insert_eq.
  - apply lookup_singleton_eq.
  - simpl. apply list_elem_of_further, list_elem_of_here.
  - apply list_elem_of_further, list_elem_of_here.
Defined.

(** C2, as the code has it.  On an allowed pose, a level outside
    beginner, intermediate and advanced leaves every rule numerically
    equal to its base value.  The level ["intermediate"] has angle
    tolerance 5: on an allowed pose with data in the knowledge base, a
    rule whose key contains [angle] is lowered by 5 when the key also
    contains [min] and raised by 5 otherwise; the other rules are
    unchanged. *)
Theorem unknown_level_keeps_and_intermediate_shifts_by_5
    (kb : gmap string pose_data) (pose : string)
    (base : gmap string rule_value) (upm : UserProfileManager) :
  pose_allowed (adapt_rules kb pose base upm) = true →
  (get_level upm ≠ "beginner" → get_level upm ≠ "intermediate" →
   get_level upm ≠ "advanced" →
   ∀ k,
     (base !! k = None →
        adapted_rules (adapt_rules kb pose base upm) !! k = None) ∧
     (∀ v, base !! k = Some v →
        ∃ v', adapted_rules (adapt_rules kb pose base upm) !! k = Some v' ∧
              num_of v' == num_of v)) ∧
  (get_level upm = "intermediate" →
   ∀ pd, kb !! pose = Some pd → pd ≠ ∅ →
   ∀ k v, base !! k = Some v →
     ∃ v', adapted_rules (adapt_rules kb pose base upm) !! k = Some v' ∧
       (contains "angle" k = true → contains "min" k = true →
          num_of v' == num_of v - 5) ∧
       (contains "angle" k = true → contains "min" k = false →
          num_of v' == num_of v + 5) ∧
       (contains "angle" k = false → v' = v)).
Proof.
  intros Hallowed. split.
  - intros Hb Hi Ha k.
    destruct (kb !! pose) as [pd|] eqn:Hpd;
      [destruct (decide (pd = ∅)) as [->|Hne]|].
    + rewrite adapt_rules_no_data by (right; exact Hpd). simpl.
      split; [tauto | intros v Hv; exists v; split; [exact Hv | reflexivity]].
    + rewrite (adapt_rules_allowed_lookup kb pose base upm pd k Hpd Hne Hallowed).
      rewrite (angle_tolerance_unknown _ Hb Hi Ha).
      split; [intros ->; reflexivity|].
      intros v ->. simpl. eexists; split; [reflexivity|].
      destruct (adapt_value_cases 0 k v) as (Hmin & Hmax & Hother).
      destruct (contains "angle" k) eqn:Hangle.
      * destruct (contains "min" k) eqn:Hm.
        -- rewrite Hmin by reflexivity. ring.
        -- rewrite Hmax by reflexivity. ring.
      * rewrite Hother by reflexivity. reflexivity.
    + rewrite adapt_rules_no_data by (left; exact Hpd). simpl.
      split; [tauto | intros v Hv; exists v; split; [exact Hv | reflexivity]].
  - intros Hlvl pd Hpd Hne k v Hv.
    rewrite (adapt_rules_allowed_lookup kb pose base upm pd k Hpd Hne Hallowed).
    rewrite Hlvl, angle_tolerance_intermediate, Hv. simpl.
    eexists; split; [reflexivity|]. apply adapt_value_cases.
Qed.

Lemma intermediate_shift_witness :
  ∃ v', adapted_rules
          (adapt_rules safety_kb "parvatasana" knee_rule
             (new_manager (profile_of "intermediate" ["back_pain"])))
          !! "knee_angle_min" = Some v' ∧
        num_of v' == 170 - 5.
Proof.
  destruct (proj2 (unknown_level_keeps_and_intermediate_shifts_by_5
                     safety_kb "parvatasana" knee_rule
                     (new_manager (profile_of "intermediate" ["back_pain"]))
                     ltac:(vm_compute; reflexivity))
              eq_refl
              {[ "contraindications" := ["high_bp"; "heart_ailments"] ]}
              (lookup_insert_eq _ _ _) (map_non_empty_singleton _ _)
              "knee_angle_min" (RNum 170) (lookup_singleton_eq _ _))
    as (v' & Hv' & Hmin & _).
  exists v'. split; [exact Hv'|]. apply Hmin; vm_compute; reflexivity.
Defined.

(** C2 as the spec words it fails for the level ["intermediate"]: the
    knee threshold 170 of an allowed pose comes back as 165. *)
Lemma intermediate_level_counterexample :
  ¬ (pose_allowed
       (adapt_rules safety_kb "parvatasana" knee_rule
          (new_manager (profile_of "intermediate" ["back_pain"]))) = true →
     ∀ k v, knee_rule !! k = Some v →
       ∃ v', adapted_rules
               (adapt_rules safety_kb "parvatasana" knee_rule
                  (new_manager (profile_of "intermediate" ["back_pain"])))
               !! k = Some v' ∧
             num_of v' == num_of v).
Proof.
  intros H.
  destruct (H ltac:(vm_compute; reflexivity) "knee_angle_min" (RNum 170)
              (lookup_singleton_eq _ _)) as (v' & Hv' & Heq).
  assert (E : adapted_rules
                (adapt_rules safety_kb "parvatasana" knee_rule
                   (new_manager (profile_of "intermediate" ["back_pain"])))
                !! "knee_angle_min" = Some (RNum 165))
    by (vm_compute; reflexivity).
  rewrite E in Hv'. injection Hv' as <-. vm_compute in Heq. discriminate Heq.
Qed.

(** C5, as the code has it.  On an allowed pose with data in the
    knowledge base, only the rules whose key contains [angle] are
    adjusted.  For a beginner such a rule is lowered by 10 when its key
    contains [min] and raised by 10 otherwise; for an advanced user it
    is raised by 5 when its key contains [min] and lowered by 5
    otherwise.  A rule whose key does not contain [angle], such as
    [spine_extension_min] or [heel_height_max], keeps its value. *)
Theorem level_tolerance_shifts_angle_rules_only
    (kb : gmap string pose_data) (pose : string)
    (base : gmap string rule_value) (upm : UserProfileManager)
    (pd : pose_data) :
  kb !! pose = Some pd → pd ≠ ∅ →
  pose_allowed (adapt_rules kb pose base upm) = true →
  ∀ k v, base !! k = Some v →
    ∃ v', adapted_rules (adapt_rules kb pose base upm) !! k = Some v' ∧
      (contains "angle" k = false → v' = v) ∧
      (get_level upm = "beginner" →
         (contains "angle" k = true → contains "min" k = true →
            num_of v' == num_of v - 10) ∧
         (contains "angle" k = true → contains "min" k = false →
            num_of v' == num_of v + 10)) ∧
      (get_level upm = "advanced" →
         (contains "angle" k = true → contains "min" k = true →
            num_of v' == num_of v + 5) ∧
         (contains "angle" k = true → contains "min" k = false →
            num_of v' == num_of v - 5)).
Proof.
  intros Hpd Hne Hallowed k v Hv.
  rewrite (adapt_rules_allowed_lookup kb pose base upm pd k Hpd Hne Hallowed).
  rewrite Hv. simpl. eexists; split; [reflexivity|].
  split; [apply adapt_value_cases|]. split; intros ->.
  - rewrite angle_tolerance_beginner.
    destruct (adapt_value_cases 10 k v) as (Hmin & Hmax & _). by split.
  - rewrite angle_tolerance_advanced.
    destruct (adapt_value_cases (-5) k v) as (Hmin & Hmax & _).
    split; intros Hangle Hm.
    + rewrite Hmin by assumption. ring.
    + rewrite Hmax by assumption. ring.
Qed.

Lemma beginner_shift_witness :
  ∃ v', adapted_rules
          (adapt_rules safety_kb "parvatasana" knee_rule
             (new_manager (profile_of "beginner" ["back_pain"])))
          !! "knee_angle_min" = Some v' ∧
        num_of v' == 170 - 10.
Proof.
  destruct (level_tolerance_shifts_angle_rules_only
              safety_kb "parvatasana" knee_rule
              (new_manager (profile_of "beginner" ["back_pain"]))
              {[ "contraindications" := ["high_bp"; "heart_ailments"] ]}
              (lookup_insert_eq _ _ _) (map_non_empty_singleton _ _)
              ltac:(vm_compute; reflexivity)
              "knee_angle_min" (RNum 170) (lookup_singleton_eq _ _))
    as (v' & Hv' & _ & Hbeg & _).
  exists v'. split; [exact Hv'|].
  apply (Hbeg eq_refl); vm_compute; reflexivity.
Defined.

(** C5 as the spec words it fails for [spine_extension_min]: for a
    beginner on an allowed pose the threshold 10 is not lowered to 0. *)
Lemma spine_extension_min_counterexample :
  ¬ (pose_allowed
       (adapt_rules safety_kb "hasta_uttanasana"
          (_get_default_rules "hasta_uttanasana")
          (new_manager (profile_of "beginner" []))) = true →
     _get_default_rules "hasta_uttanasana" !! "spine_extension_min"
       = Some (RNum 10) →
     ∃ v', adapted_rules
             (adapt_rules safety_kb "hasta_uttanasana"
                (_get_default_rules "hasta_uttanasana")
                (new_manager (profile_of "beginner" [])))
             !! "spine_extension_min" = Some v' ∧
           num_of v' == 10 - 10).
Proof.
  intros H.
  destruct (H ltac:(vm_compute; reflexivity) ltac:(vm_compute; reflexivity))
    as (v' & Hv' & Heq).
  assert (E : adapted_rules
                (adapt_rules safety_kb "hasta_uttanasana"
                   (_get_default_rules "hasta_uttanasana")
                   (new_manager (profile_of "beginner" [])))
                !! "spine_extension_min" = Some (RNum 10))
    by (vm_compute; reflexivity).
  rewrite E in Hv'. injection Hv' as <-. vm_compute in Heq. discriminate Heq.
Qed.

End Safety.

(** ** Rule evaluation *)

Section Rules.
Import RuleEngine Examples.

Lemma getitem_Return {V} (d : gmap string V) (k : string) (v : V) :
  d !! k = Some v → getitem d k = Return v.
Proof. unfold getitem. by intros ->. Qed.

Lemma getitem_Raise {V} (d : gmap string V) (k : string) :
  d !! k = None → getitem d k = Raise (KeyError k).
Proof. unfold getitem. by intros ->. Qed.

Lemma bind_Return {A B} (a : A) (k : A → outcome B) :
  (Return a ≫= k) = k a.
Proof. reflexivity. Qed.

Lemma bind_Raise {A B} (e : exn) (k : A → outcome B) :
  (Raise e ≫= k) = Raise e.
Proof. reflexivity. Qed.

(** An asymmetric pair fails the conjunction of the two side checks. *)
Lemma one_side_fails (t l r : Q) :
  ((t <= l)%Q ∧ ¬ (t <= r)%Q) ∨ (¬ (t <= l)%Q ∧ (t <= r)%Q) →
  Qleb t l && Qleb t r = false.
Proof.
  intros [[_ H] | [H _]]; apply Qleb_false in H; rewrite H;
    [apply andb_false_r | reflexivity].
Qed.

Lemma eval_knees_asymmetric (ja : gmap string Q)
    (rules : gmap string rule_value) (st : eval_state)
    (thr : rule_value) (l r : Q) :
  rules !! "knee_angle_min" = Some thr →
  ja !! "left_knee_angle" = Some l → ja !! "right_knee_angle" = Some r →
  ((num_of thr <= l)%Q ∧ ¬ (num_of thr <= r)%Q) ∨
  (¬ (num_of thr <= l)%Q ∧ (num_of thr <= r)%Q) →
  eval_knees ja rules st =
    Return (EvalState (st_issues st ++ ["knees_bent"])
              (st_passed_rules st)
              (<["knees_extended" := false]> (st_failed_rules st))
              (st_total_rules st + 2) (st_passed_count st)).
Proof.
  intros Hthr Hl Hr Hone. unfold eval_knees. rewrite Hthr.
  rewrite (getitem_Return _ _ _ Hl), bind_Return.
  rewrite (getitem_Return _ _ _ Hr), bind_Return.
  by rewrite (one_side_fails _ _ _ Hone).
Qed.

Lemma eval_elbows_asymmetric (ja : gmap string Q)
    (rules : gmap string rule_value) (st : eval_state)
    (thr : rule_value) (l r : Q) :
  rules !! "elbow_angle_min" = Some thr →
  ja !! "left_elbow_angle" = Some l → ja !! "right_elbow_angle" = Some r →
  ((num_of thr <= l)%Q ∧ ¬ (num_of thr <= r)%Q) ∨
  (¬ (num_of thr <= l)%Q ∧ (num_of thr <= r)%Q) →
  eval_elbows ja rules st =
    Return (EvalState (st_issues st ++ ["elbows_bent"])
              (st_passed_rules st)
              (<["elbows_extended" := false]> (st_failed_rules st))
              (st_total_rules st + 2) (st_passed_count st)).
Proof.
  intros Hthr Hl Hr Hone. unfold eval_elbows. rewrite Hthr.
  rewrite (getitem_Return _ _ _ Hl), bind_Return.
  rewrite (getitem_Return _ _ _ Hr), bind_Return.
  by rewrite (one_side_fails _ _ _ Hone).
Qed.

(** C1, as the code has it.  When exactly one of the two knee angles
    meets [knee_angle_min], the knee step adds 2 to the total and
    nothing to the passed count, records [knees_extended] as failed and
    appends [knees_bent] once; so with [knee_angle_min] as the only rule
    the alignment score is 0.  The elbow step does the same for
    [elbow_angle_min]. *)
Theorem asymmetric_pair_earns_no_credit
    (pose : string) (lm : gmap string point) (ja : gmap string Q)
    (thr : rule_value) (l r : Q) :
  ((num_of thr <= l)%Q ∧ ¬ (num_of thr <= r)%Q) ∨
  (¬ (num_of thr <= l)%Q ∧ (num_of thr <= r)%Q) →
  (ja !! "left_knee_angle" = Some l → ja !! "right_knee_angle" = Some r →
     (∀ rules st, rules !! "knee_angle_min" = Some thr →
        ∃ st', eval_knees ja rules st = Return st' ∧
               st_total_rules st' = st_total_rules st + 2 ∧
               st_passed_count st' = st_passed_count st ∧
               st_issues st' = st_issues st ++ ["knees_bent"]) ∧
     ∃ res, evaluate_pose pose lm ja {[ "knee_angle_min" := thr ]} = Return res ∧
            alignment_score res == 0 ∧
            issues res = ["knees_bent"] ∧
            passed_rules res = ∅ ∧
            failed_rules res = {[ "knees_extended" := false ]}) ∧
  (ja !! "left_elbow_angle" = Some l → ja !! "right_elbow_angle" = Some r →
     (∀ rules st, rules !! "elbow_angle_min" = Some thr →
        ∃ st', eval_elbows ja rules st = Return st' ∧
               st_total_rules st' = st_total_rules st + 2 ∧
               st_passed_count st' = st_passed_count st ∧
               st_issues st' = st_issues st ++ ["elbows_bent"]) ∧
     ∃ res, evaluate_pose pose lm ja {[ "elbow_angle_min" := thr ]} = Return res ∧
            alignment_score res == 0 ∧
            issues res = ["elbows_bent"] ∧
            passed_rules res = ∅ ∧
            failed_rules res = {[ "elbows_extended" := false ]}).
Proof.
  intros Hone. split; intros Hl Hr; split.
  - intros rules st Hthr.
    rewrite (eval_knees_asymmetric ja rules st thr l r Hthr Hl Hr Hone).
    eexists; repeat split.
  - unfold evaluate_pose.
    rewrite (eval_knees_asymmetric ja _ eval_init thr l r
               (lookup_singleton_eq _ _) Hl Hr Hone), bind_Return.
    unfold eval_elbows. rewrite lookup_singleton_ne by discriminate.
    rewrite bind_Return.
    unfold eval_hips. rewrite lookup_singleton_ne by discriminate.
    rewrite bind_Return.
    eexists; split; [reflexivity|]. repeat split.
  - intros rules st Hthr.
    rewrite (eval_elbows_asymmetric ja rules st thr l r Hthr Hl Hr Hone).
    eexists; repeat split.
  - unfold evaluate_pose.
    unfold eval_knees. rewrite lookup_singleton_ne by discriminate.
    rewrite bind_Return.
    rewrite (eval_elbows_asymmetric ja _ eval_init thr l r
               (lookup_singleton_eq _ _) Hl Hr Hone), bind_Return.
    unfold eval_hips. rewrite lookup_singleton_ne by discriminate.
    rewrite bind_Return.
    eexists; split; [reflexivity|]. repeat split.
Qed.

Lemma asymmetric_pair_witness :
  ∃ res, evaluate_pose "parvatasana" ∅ one_bent_knee knee_rule = Return res ∧
         alignment_score res == 0.
Proof.
  destruct (proj1 (asymmetric_pair_earns_no_credit
                     "parvatasana" ∅ one_bent_knee (RNum 170) 175 165
                     ltac:(left; split; vm_compute; [discriminate | tauto]))
              (lookup_insert_eq _ _ _)
              ltac:(unfold one_bent_knee;
                    rewrite lookup_insert_ne by discriminate;
                    apply lookup_singleton_eq))
    as (_ & res & Hres & Hscore & _).
  exists res. split; assumption.
Defined.

(** C1 as the spec words it fails: with the left knee at 175, the right
    knee at 165 and [knee_angle_min = 170] as the only rule, the score
    is not 50. *)
Lemma one_bent_knee_counterexample :
  ¬ (∃ res, evaluate_pose "parvatasana" ∅ one_bent_knee knee_rule = Return res ∧
            alignment_score res == 50).
Proof.
  assert (E : match evaluate_pose "parvatasana" ∅ one_bent_knee knee_rule with
              | Return res => Some (alignment_score res)
              | Raise _ => None
              end = Some (0 # 100)%Q) by (vm_compute; reflexivity).
  intros (res & Hres & Hscore). rewrite Hres in E. injection E as E.
  rewrite E in Hscore. vm_compute in Hscore. discriminate Hscore.
Qed.

(** Closes the cases of a bilateral step: it returns exactly when the
    rule is absent or both side angles are present. *)
Ltac pair_step_cases :=
  split;
  [ intros [? H]; try discriminate H; intros Hrule;
    first [ destruct Hrule as [? Hrule]; discriminate Hrule
          | split; eauto ]
  | intros H;
    first [ eexists; reflexivity
          | destruct H as [[? ?] [? ?]]; [eauto | discriminate] ] ].

Lemma eval_knees_returns (ja : gmap string Q)
    (rules : gmap string rule_value) (st : eval_state) :
  (∃ st', eval_knees ja rules st = Return st') ↔
  (is_Some (rules !! "knee_angle_min") →
     is_Some (ja !! "left_knee_angle") ∧ is_Some (ja !! "right_knee_angle")).
Proof.
  unfold eval_knees, getitem, is_Some.
  destruct (rules !! "knee_angle_min") as [thr|];
    destruct (ja !! "left_knee_angle") as [l|];
    destruct (ja !! "right_knee_angle") as [r|]; simpl;
    try destruct (Qleb (num_of thr) l && Qleb (num_of thr) r);
    pair_step_cases.
Qed.

Lemma eval_elbows_returns (ja : gmap string Q)
    (rules : gmap string rule_value) (st : eval_state) :
  (∃ st', eval_elbows ja rules st = Return st') ↔
  (is_Some (rules !! "elbow_angle_min") →
     is_Some (ja !! "left_elbow_angle") ∧ is_Some (ja !! "right_elbow_angle")).
Proof.
  unfold eval_elbows, getitem, is_Some.
  destruct (rules !! "elbow_angle_min") as [thr|];
    destruct (ja !! "left_elbow_angle") as [l|];
    destruct (ja !! "right_elbow_angle") as [r|]; simpl;
    try destruct (Qleb (num_of thr) l && Qleb (num_of thr) r);
    pair_step_cases.
Qed.

Lemma eval_hips_returns (lm : gmap string point)
    (rules : gmap string rule_value) (st : eval_state) :
  (∃ st', eval_hips lm rules st = Return st') ↔
  (∀ flag, rules !! "hip_height_above_shoulder" = Some flag →
     truthy flag = true →
     is_Some (lm !! "left_hip") ∧ is_Some (lm !! "right_hip") ∧
     is_Some (lm !! "left_shoulder") ∧ is_Some (lm !! "right_shoulder")).
Proof.
  unfold eval_hips, getitem, is_Some.
  destruct (rules !! "hip_height_above_shoulder") as [flag|];
    [destruct (truthy flag) eqn:Hflag|].
  - destruct (lm !! "left_hip") as [lh|];
      destruct (lm !! "right_hip") as [rh|];
      destruct (lm !! "left_shoulder") as [ls|];
      destruct (lm !! "right_shoulder") as [rs|]; simpl;
      try match goal with |- context [if ?b then _ else _] => destruct b end;
      (split;
       [ intros [st' H]; try discriminate H; intros; repeat split; eauto
       | intros H; try (eexists; reflexivity);
         destruct (H flag eq_refl Hflag) as ([? ?] & [? ?] & [? ?] & [? ?]);
         discriminate ]).
  - split; [intros _ f [= <-]; congruence | eauto].
  - split; [intros _ f [=] | eauto].
Qed.

(** C3, as the code has it.  [evaluate_pose] returns a result exactly
    when the input maps hold every key that a present rule reads: both
    knee angles for [knee_angle_min], both elbow angles for
    [elbow_angle_min], and the two hips and two shoulders for a true
    [hip_height_above_shoulder].  Otherwise it raises [KeyError]; in
    particular a missing [left_knee_angle] under [knee_angle_min]
    raises [KeyError] for that key. *)
Theorem evaluate_pose_returns_iff_keys_present
    (pose : string) (lm : gmap string point) (ja : gmap string Q)
    (rules : gmap string rule_value) :
  ((∃ res, evaluate_pose pose lm ja rules = Return res) ↔
     (is_Some (rules !! "knee_angle_min") →
        is_Some (ja !! "left_knee_angle") ∧
        is_Some (ja !! "right_knee_angle")) ∧
     (is_Some (rules !! "elbow_angle_min") →
        is_Some (ja !! "left_elbow_angle") ∧
        is_Some (ja !! "right_elbow_angle")) ∧
     (∀ flag, rules !! "hip_height_above_shoulder" = Some flag →
        truthy flag = true →
        is_Some (lm !! "left_hip") ∧ is_Some (lm !! "right_hip") ∧
        is_Some (lm !! "left_shoulder") ∧ is_Some (lm !! "right_shoulder"))) ∧
  ((¬ ∃ res, evaluate_pose pose lm ja rules = Return res) →
     ∃ k, evaluate_pose pose lm ja rules = Raise (KeyError k)) ∧
  (is_Some (rules !! "knee_angle_min") → ja !! "left_knee_angle" = None →
     evaluate_pose pose lm ja rules = Raise (KeyError "left_knee_angle")).
Proof.
  split; [|split].
  - unfold evaluate_pose. split.
    + intros [res H].
      destruct (eval_knees ja rules eval_init) as [st1|e] eqn:E1;
        [|discriminate H].
      rewrite bind_Return in H.
      destruct (eval_elbows ja rules st1) as [st2|e] eqn:E2;
        [|discriminate H].
      rewrite bind_Return in H.
      destruct (eval_hips lm rules st2) as [st3|e] eqn:E3;
        [|discriminate H].
      split; [|split].
      * apply (eval_knees_returns ja rules eval_init). eauto.
      * apply (eval_elbows_returns ja rules st1). eauto.
      * apply (eval_hips_returns lm rules st2). eauto.
    + intros (HK & HE & HH).
      apply (eval_knees_returns ja rules eval_init) in HK as [st1 ->].
      rewrite bind_Return.
      apply (eval_elbows_returns ja rules st1) in HE as [st2 ->].
      rewrite bind_Return.
      apply (eval_hips_returns lm rules st2) in HH as [st3 ->].
      rewrite bind_Return. eauto.
  - intros Hno. destruct (evaluate_pose pose lm ja rules) as [res|[k]].
    + exfalso. apply Hno. eauto.
    + eauto.
  - intros [thr Hthr] Hl. unfold evaluate_pose, eval_knees.
    rewrite Hthr, (getitem_Raise _ _ Hl). reflexivity.
Qed.

Lemma evaluate_pose_keys_witness :
  ∃ res, evaluate_pose "parvatasana" ∅ one_bent_knee knee_rule = Return res.
Proof.
  apply (proj1 (evaluate_pose_returns_iff_keys_present
                  "parvatasana" ∅ one_bent_knee knee_rule)).
  split; [|split].
  - intros _. split.
    + eexists. apply lookup_insert_eq.
    + eexists. unfold one_bent_knee.
      rewrite lookup_insert_ne by discriminate.
      apply lookup_singleton_eq.
  - intros [x Hx]. unfold knee_rule in Hx.
    rewrite lookup_singleton_ne in Hx by discriminate.
    discriminate Hx.
  - intros flag Hflag. unfold knee_rule in Hflag.
    rewrite lookup_singleton_ne in Hflag by discriminate.
    discriminate Hflag.
Defined.

(** C3 as the spec words it fails: with [knee_angle_min] present and no
    knee angle in the input, no result is returned. *)
Lemma missing_knee_angle_counterexample :
  ¬ (∃ res, evaluate_pose "parvatasana" ∅ ∅ knee_rule = Return res).
Proof.
  intros [res H]. vm_compute in H. discriminate H.
Qed.

End Rules.

(** ** Progress tracking *)

Section Tracking.
Import ProgressTracker Examples.

Lemma deque_append_last_n {A} (n : nat) (d : list A) (x : A) :
  (0 < n)%nat → (length d ≤ n)%nat →
  deque_append n d x = last_n n (d ++ [x]).
Proof.
  intros Hn Hd. unfold deque_append, last_n. rewrite length_app. simpl.
  destruct (decide (n ≤ length d)%nat) as [Hfull|Hroom].
  - replace (length d + 1 - n)%nat with 1%nat by lia.
    destruct d as [|a d]; simpl in *; [lia | reflexivity].
  - replace (length d + 1 - n)%nat with 0%nat by lia. reflexivity.
Qed.

Lemma last_n_length {A} (n : nat) (l : list A) :
  length (last_n n l) = Nat.min (length l) n.
Proof. unfold last_n. rewrite length_drop. lia. Qed.

Lemma last_n_snoc {A} (n : nat) (l : list A) (x : A) :
  last_n n (last_n n l ++ [x]) = last_n n (l ++ [x]).
Proof.
  unfold last_n. rewrite !length_app, length_drop. simpl.
  destruct (decide (length l ≤ n)%nat) as [Hle|Hgt].
  - replace (length l - n)%nat with 0%nat by lia. simpl.
    by rewrite Nat.sub_0_r.
  - replace (length l - (length l - n) + 1 - n)%nat with 1%nat by lia.
    replace (length l + 1 - n)%nat with ((length l - n) + 1)%nat by lia.
    rewrite <- drop_drop. f_equal.
    rewrite drop_app_le by lia. reflexivity.
Qed.

Lemma updates_snoc (ops : float64_ops) (fs : list FrameMetrics) (f : FrameMetrics) (t : tracker) :
  updates ops (fs ++ [f]) t = update ops f (updates ops fs t).
Proof. unfold updates. by rewrite foldl_app. Qed.

Lemma updates_app (ops : float64_ops) (fs gs : list FrameMetrics) (t : tracker) :
  updates ops (fs ++ gs) t = updates ops gs (updates ops fs t).
Proof. unfold updates. by rewrite foldl_app. Qed.

Lemma update_fatigue_window (ops : float64_ops) (f : FrameMetrics) (t : tracker) :
  fatigue_window (update ops f t) =
    deque_append 24 (fatigue_window t) (alignment_score f).
Proof. reflexivity. Qed.

Lemma update_fatigue_detected (ops : float64_ops) (f : FrameMetrics) (t : tracker) :
  fatigue_detected (update ops f t) =
    let w := fatigue_window (update ops f t) in
    if decide (24 ≤ length w)%nat then
      if Qltb 70 (f64_mean ops (take 12 w)) &&
         Qltb (f64_mean ops (drop 12 w))
              (f64_sub ops (f64_mean ops (take 12 w)) 15)
      then true else fatigue_detected t
    else fatigue_detected t.
Proof. reflexivity. Qed.

(** The flag is never cleared by [update]. *)
Lemma fatigue_sticky (ops : float64_ops) (fs : list FrameMetrics) (t : tracker) :
  fatigue_detected t = true → fatigue_detected (updates ops fs t) = true.
Proof.
  revert t. induction fs as [|f fs IH]; intros t Ht; [exact Ht|].
  change (updates ops (f :: fs) t) with (updates ops fs (update ops f t)).
  apply IH. rewrite update_fatigue_detected. cbv zeta.
  rewrite Ht. by repeat case_match.
Qed.

(** Within a session the window holds the last 24 scores. *)
Lemma fatigue_window_last_24 (ops : float64_ops) (now : Q) (t0 : tracker) (fs : list FrameMetrics) :
  fatigue_window (updates ops fs (start_session now t0)) =
    last_n 24 (alignment_score <$> fs).
Proof.
  induction fs as [|f fs IH] using rev_ind; [reflexivity|].
  rewrite updates_snoc, update_fatigue_window, IH.
  rewrite deque_append_last_n; [|lia|rewrite last_n_length; lia].
  by rewrite fmap_app, last_n_snoc.
Qed.

Lemma no_fatigue_before_24 (ops : float64_ops) (now : Q) (t0 : tracker) (fs : list FrameMetrics) :
  (length fs < 24)%nat →
  fatigue_detected (updates ops fs (start_session now t0)) = false.
Proof.
  induction fs as [|f fs IH] using rev_ind; intros Hlen; [reflexivity|].
  rewrite length_app in Hlen. simpl in Hlen.
  rewrite updates_snoc, update_fatigue_detected. cbv zeta.
  rewrite <- updates_snoc, fatigue_window_last_24, last_n_length.
  rewrite length_fmap, length_app. simpl.
  destruct (decide (24 ≤ Nat.min (length fs + 1) 24)%nat); [lia|].
  apply IH. lia.
Qed.

(** C6.  A session starts with the fatigue flag down and with the
    window holding the last 24 scores of the session.  The flag stays
    down while fewer than 24 frames have been recorded.  After an
    update that leaves a 24-sample window whose first 12 scores have a
    mean above 70 and whose last 12 scores have a mean below that mean
    minus 15, the flag is up, and it is up after every later frame;
    only [start_session] takes it down again.  The means and the
    difference are the float64 values the code computes, whatever their
    rounding. *)
Theorem fatigue_flag_sticky_within_session (ops : float64_ops)
    (now : Q) (t0 : tracker) (frames : list FrameMetrics) :
  fatigue_detected (start_session now t0) = false ∧
  fatigue_window (updates ops frames (start_session now t0)) =
    last_n 24 (alignment_score <$> frames) ∧
  ((length frames < 24)%nat →
     fatigue_detected (updates ops frames (start_session now t0)) = false) ∧
  (∀ pre post, frames = pre ++ post → pre ≠ [] →
     length (fatigue_window (updates ops pre (start_session now t0))) = 24%nat →
     (70 < f64_mean ops
             (take 12 (fatigue_window
                         (updates ops pre (start_session now t0)))))%Q →
     (f64_mean ops
        (drop 12 (fatigue_window (updates ops pre (start_session now t0)))) <
      f64_sub ops
        (f64_mean ops
           (take 12 (fatigue_window
                       (updates ops pre (start_session now t0)))))
        15)%Q →
     fatigue_detected (updates ops frames (start_session now t0)) = true) ∧
  (∀ now', fatigue_detected
             (start_session now' (updates ops frames (start_session now t0)))
           = false).
Proof.
  split; [reflexivity|]. split; [apply fatigue_window_last_24|].
  split; [apply no_fatigue_before_24|]. split; [|reflexivity].
  intros pre post -> Hpre Hlen H70 Hdrop.
  rewrite updates_app. apply fatigue_sticky.
  destruct pre as [|f pre _] using rev_ind; [contradiction|].
  rewrite updates_snoc in *. rewrite update_fatigue_detected. cbv zeta.
  rewrite Hlen. destruct (decide (24 ≤ 24)%nat); [|lia].
  apply Qltb_lt in H70, Hdrop. rewrite H70, Hdrop. reflexivity.
Qed.

(** Twelve scores of 85 and twelve of 60: the sums 1020 and 720, the
    means 85 and 60 and the difference 85 - 15 are all representable, so
    [exact_ops] is the float64 arithmetic on this input. *)
Lemma fatigue_flag_witness :
  fatigue_detected
    (updates exact_ops (replicate 12 (score_frame 85) ++ replicate 11 (score_frame 60))
       (start_session 0 init)) = false ∧
  fatigue_detected
    (updates exact_ops ((replicate 12 (score_frame 85) ++ replicate 12 (score_frame 60))
              ++ [score_frame 90])
       (start_session 0 init)) = true.
Proof.
  split.
  - destruct (fatigue_flag_sticky_within_session exact_ops 0 init
                (replicate 12 (score_frame 85) ++ replicate 11 (score_frame 60)))
      as (_ & _ & Hshort & _).
    apply Hshort. rewrite length_app, !length_replicate. lia.
  - destruct (fatigue_flag_sticky_within_session exact_ops 0 init
                ((replicate 12 (score_frame 85) ++ replicate 12 (score_frame 60))
                 ++ [score_frame 90]))
      as (_ & _ & _ & Hset & _).
    apply (Hset (replicate 12 (score_frame 85) ++ replicate 12 (score_frame 60))
                [score_frame 90] eq_refl).
    + discriminate.
    + vm_compute. reflexivity.
    + vm_compute. reflexivity.
    + vm_compute. reflexivity.
Defined.

(** The part of the stability guard that the code does implement. *)
Lemma compute_stability_short_left (t : tracker) :
  (length (left_angles_history t) < 10)%nat → compute_stability t = 0%Q.
Proof.
  intros H. unfold compute_stability.
  destruct (decide (length (left_angles_history t) < 10)%nat); [reflexivity|lia].
Qed.

(** C7, on the code.  Ten frames that carry a left knee angle only give
    a left history of 10 samples and an empty right history, and
    [compute_stability] answers 100 instead of 0. *)
Theorem compute_stability_with_empty_right_history (ops : float64_ops) :
  length (left_angles_history
            (updates ops (replicate 10 left_only_frame) (start_session 0 init)))
    = 10%nat ∧
  length (right_angles_history
            (updates ops (replicate 10 left_only_frame) (start_session 0 init)))
    = 0%nat ∧
  compute_stability
    (updates ops (replicate 10 left_only_frame) (start_session 0 init)) == 100 ∧
  ¬ compute_stability
      (updates ops (replicate 10 left_only_frame) (start_session 0 init)) == 0.
Proof.
  split; [vm_compute; reflexivity|]. split; [vm_compute; reflexivity|].
  split; [vm_compute; reflexivity|]. intros H. vm_compute in H. discriminate H.
Qed.

End Tracking.

(** ** Rule evaluation: the shape of every result *)

Section RuleResults.
Import RuleEngine Examples.

Lemma both_sides_pass (t l r : Q) :
  Qleb t l && Qleb t r = true ↔ (t <= l)%Q ∧ (t <= r)%Q.
Proof. by rewrite andb_true_iff, !Qleb_le. Qed.

(** Closes the bookkeeping goals of a step that was skipped, passed or
    failed. *)
Ltac step_fields :=
  simpl; rewrite ?app_nil_r, ?Nat.add_0_r; repeat split; try reflexivity.

Lemma eval_knees_shape (ja : gmap string Q) (rules : gmap string rule_value)
    (st st' : eval_state) :
  eval_knees ja rules st = Return st' →
  ∃ k a : bool,
    (k = true ↔ is_Some (rules !! "knee_angle_min")) ∧
    (a = true ↔
       ∃ thr l r, rules !! "knee_angle_min" = Some thr ∧
                  ja !! "left_knee_angle" = Some l ∧
                  ja !! "right_knee_angle" = Some r ∧
                  (num_of thr <= l)%Q ∧ (num_of thr <= r)%Q) ∧
    st_issues st' =
      st_issues st ++ (if k && negb a then ["knees_bent"] else []) ∧
    st_failed_rules st' =
      (if k && negb a then <["knees_extended" := false]> (st_failed_rules st)
       else st_failed_rules st) ∧
    st_total_rules st' = (st_total_rules st + (if k then 2 else 0))%nat ∧
    st_passed_count st' = (st_passed_count st + (if k && a then 2 else 0))%nat.
Proof.
  unfold eval_knees, getitem.
  destruct (rules !! "knee_angle_min") as [thr|] eqn:Hthr.
  - destruct (ja !! "left_knee_angle") as [l|] eqn:Hl; [|discriminate].
    destruct (ja !! "right_knee_angle") as [r|] eqn:Hr; [|discriminate].
    simpl. destruct (Qleb (num_of thr) l && Qleb (num_of thr) r) eqn:E;
      intros [= <-].
    + exists true, true. apply both_sides_pass in E. step_fields.
      * intros _. by eexists.
      * intros _. exists thr, l, r. tauto.
    + exists true, false. step_fields; try discriminate.
      * intros _. by eexists.
      * intros (thr' & l' & r' & [= <-] & [= <-] & [= <-] & H).
        apply both_sides_pass in H. congruence.
  - intros [= <-]. exists false, false. step_fields; try discriminate.
    + intros [? [=]].
    + intros (? & ? & ? & [=] & _).
Qed.

Lemma eval_elbows_shape (ja : gmap string Q) (rules : gmap string rule_value)
    (st st' : eval_state) :
  eval_elbows ja rules st = Return st' →
  ∃ e b : bool,
    (e = true ↔ is_Some (rules !! "elbow_angle_min")) ∧
    (b = true ↔
       ∃ thr l r, rules !! "elbow_angle_min" = Some thr ∧
                  ja !! "left_elbow_angle" = Some l ∧
                  ja !! "right_elbow_angle" = Some r ∧
                  (num_of thr <= l)%Q ∧ (num_of thr <= r)%Q) ∧
    st_issues st' =
      st_issues st ++ (if e && negb b then ["elbows_bent"] else []) ∧
    st_failed_rules st' =
      (if e && negb b then <["elbows_extended" := false]> (st_failed_rules st)
       else st_failed_rules st) ∧
    st_total_rules st' = (st_total_rules st + (if e then 2 else 0))%nat ∧
    st_passed_count st' = (st_passed_count st + (if e && b then 2 else 0))%nat.
Proof.
  unfold eval_elbows, getitem.
  destruct (rules !! "elbow_angle_min") as [thr|] eqn:Hthr.
  - destruct (ja !! "left_elbow_angle") as [l|] eqn:Hl; [|discriminate].
    destruct (ja !! "right_elbow_angle") as [r|] eqn:Hr; [|discriminate].
    simpl. destruct (Qleb (num_of thr) l && Qleb (num_of thr) r) eqn:E;
      intros [= <-].
    + exists true, true. apply both_sides_pass in E. step_fields.
      * intros _. by eexists.
      * intros _. exists thr, l, r. tauto.
    + exists true, false. step_fields; try discriminate.
      * intros _. by eexists.
      * intros (thr' & l' & r' & [= <-] & [= <-] & [= <-] & H).
        apply both_sides_pass in H. congruence.
  - intros [= <-]. exists false, false. step_fields; try discriminate.
    + intros [? [=]].
    + intros (? & ? & ? & [=] & _).
Qed.

Lemma eval_hips_shape (lm : gmap string point) (rules : gmap string rule_value)
    (st st' : eval_state) :
  eval_hips lm rules st = Return st' →
  ∃ h c : bool,
    (h = true ↔
       ∃ flag, rules !! "hip_height_above_shoulder" = Some flag ∧
               truthy flag = true) ∧
    (c = true ↔
       h = true ∧
       ∃ lh rh ls rs, lm !! "left_hip" = Some lh ∧ lm !! "right_hip" = Some rh ∧
                      lm !! "left_shoulder" = Some ls ∧
                      lm !! "right_shoulder" = Some rs ∧
                      (py (point_div (point_add lh rh) 2) <
                       py (point_div (point_add ls rs) 2))%Q) ∧
    st_issues st' =
      st_issues st ++ (if h && negb c then ["hips_low"] else []) ∧
    st_failed_rules st' =
      (if h && negb c then <["hip_elevation" := false]> (st_failed_rules st)
       else st_failed_rules st) ∧
    st_total_rules st' = (st_total_rules st + (if h then 1 else 0))%nat ∧
    st_passed_count st' = (st_passed_count st + (if h && c then 1 else 0))%nat.
Proof.
  unfold eval_hips, getitem.
  destruct (rules !! "hip_height_above_shoulder") as [flag|] eqn:Hflag;
    [destruct (truthy flag) eqn:Ht|].
  - destruct (lm !! "left_hip") as [lh|] eqn:Hlh; [|discriminate].
    destruct (lm !! "right_hip") as [rh|] eqn:Hrh; [|discriminate].
    destruct (lm !! "left_shoulder") as [ls|] eqn:Hls; [|discriminate].
    destruct (lm !! "right_shoulder") as [rs|] eqn:Hrs; [|discriminate].
    cbn [mbind outcome_bind].
    destruct (Qltb (py (point_div (point_add lh rh) 2))
                   (py (point_div (point_add ls rs) 2))) eqn:E;
      intros [= <-].
    + exists true, true. apply Qltb_lt in E. step_fields.
      * intros _. by exists flag.
      * by exists lh, rh, ls, rs.
    + exists true, false. step_fields; try discriminate.
      * intros _. by exists flag.
      * intros (_ & lh' & rh' & ls' & rs' & [= <-] & [= <-] & [= <-] & [= <-] & H).
        apply Qltb_lt in H. simpl in E. congruence.
  - intros [= <-]. exists false, false. step_fields; try discriminate.
    + intros (f & [= <-] & Hf). congruence.
    + intros [[=] _].
  - intros [= <-]. exists false, false. step_fields; try discriminate.
    + intros (f & [=] & _).
    + intros [[=] _].
Qed.

(** Every result of [evaluate_pose] is fixed by six bits: whether each
    of the three rules applies ([k], [e], [h]) and whether it passes
    ([a], [b], [c]). *)
Lemma evaluate_pose_shape (pose : string) (lm : gmap string point)
    (ja : gmap string Q) (rules : gmap string rule_value) (res : evaluation) :
  evaluate_pose pose lm ja rules = Return res →
  ∃ k a e b h c : bool,
    (k = true ↔ is_Some (rules !! "knee_angle_min")) ∧
    (a = true ↔
       ∃ thr l r, rules !! "knee_angle_min" = Some thr ∧
                  ja !! "left_knee_angle" = Some l ∧
                  ja !! "right_knee_angle" = Some r ∧
                  (num_of thr <= l)%Q ∧ (num_of thr <= r)%Q) ∧
    (e = true ↔ is_Some (rules !! "elbow_angle_min")) ∧
    (b = true ↔
       ∃ thr l r, rules !! "elbow_angle_min" = Some thr ∧
                  ja !! "left_elbow_angle" = Some l ∧
                  ja !! "right_elbow_angle" = Some r ∧
                  (num_of thr <= l)%Q ∧ (num_of thr <= r)%Q) ∧
    (h = true ↔
       ∃ flag, rules !! "hip_height_above_shoulder" = Some flag ∧
               truthy flag = true) ∧
    (c = true ↔
       h = true ∧
       ∃ lh rh ls rs, lm !! "left_hip" = Some lh ∧ lm !! "right_hip" = Some rh ∧
                      lm !! "left_shoulder" = Some ls ∧
                      lm !! "right_shoulder" = Some rs ∧
                      (py (point_div (point_add lh rh) 2) <
                       py (point_div (point_add ls rs) 2))%Q) ∧
    issues res =
      (if k && negb a then ["knees_bent"] else []) ++
      (if e && negb b then ["elbows_bent"] else []) ++
      (if h && negb c then ["hips_low"] else []) ∧
    failed_rules res =
      (if h && negb c then <["hip_elevation" := false]> else id)
        ((if e && negb b then <["elbows_extended" := false]> else id)
           ((if k && negb a then <["knees_extended" := false]> else id) ∅)) ∧
    alignment_score res =
      alignment_score
        (eval_finish
           (EvalState [] ∅ ∅
              ((if k then 2 else 0) + (if e then 2 else 0) + (if h then 1 else 0))
              ((if k && a then 2 else 0) + (if e && b then 2 else 0) +
               (if h && c then 1 else 0)))).
Proof.
  unfold evaluate_pose. intros H.
  destruct (eval_knees ja rules eval_init) as [st1|] eqn:E1; [|discriminate H].
  rewrite bind_Return in H.
  destruct (eval_elbows ja rules st1) as [st2|] eqn:E2; [|discriminate H].
  rewrite bind_Return in H.
  destruct (eval_hips lm rules st2) as [st3|] eqn:E3; [|discriminate H].
  rewrite bind_Return in H. injection H as <-.
  apply eval_knees_shape in E1 as (k & a & Hk & Ha & I1 & F1 & T1 & P1).
  apply eval_elbows_shape in E2 as (e & b & He & Hb & I2 & F2 & T2 & P2).
  apply eval_hips_shape in E3 as (h & c & Hh & Hc & I3 & F3 & T3 & P3).
  exists k, a, e, b, h, c.
  do 6 (split; [assumption|]).
  unfold eval_finish. cbn [issues failed_rules alignment_score
                           st_issues st_failed_rules st_total_rules
                           st_passed_count].
  rewrite I3, I2, I1, F3, F2, F1, T3, T2, T1, P3, P2, P1. simpl.
  split; [by rewrite <- app_assoc|]. split; [|reflexivity].
  by destruct (h && negb c), (e && negb b), (k && negb a).
Qed.

(** A returned result means that every key a present rule reads was
    there. *)
Lemma evaluate_pose_needs_keys (pose : string) (lm : gmap string point)
    (ja : gmap string Q) (rules : gmap string rule_value) (res : evaluation) :
  evaluate_pose pose lm ja rules = Return res →
  (is_Some (rules !! "knee_angle_min") →
     is_Some (ja !! "left_knee_angle") ∧ is_Some (ja !! "right_knee_angle")) ∧
  (is_Some (rules !! "elbow_angle_min") →
     is_Some (ja !! "left_elbow_angle") ∧ is_Some (ja !! "right_elbow_angle")) ∧
  (∀ flag, rules !! "hip_height_above_shoulder" = Some flag →
     truthy flag = true →
     is_Some (lm !! "left_hip") ∧ is_Some (lm !! "right_hip") ∧
     is_Some (lm !! "left_shoulder") ∧ is_Some (lm !! "right_shoulder")).
Proof.
  unfold evaluate_pose. intros H.
  destruct (eval_knees ja rules eval_init) as [st1|] eqn:E1; [|discriminate H].
  rewrite bind_Return in H.
  destruct (eval_elbows ja rules st1) as [st2|] eqn:E2; [|discriminate H].
  rewrite bind_Return in H.
  destruct (eval_hips lm rules st2) as [st3|] eqn:E3; [|discriminate H].
  split; [|split].
  - apply (eval_knees_returns ja rules eval_init). eauto.
  - apply (eval_elbows_returns ja rules st1). eauto.
  - apply (eval_hips_returns lm rules st2). eauto.
Qed.

Lemma evaluate_pose_returns_of_keys (pose : string) (lm : gmap string point)
    (ja : gmap string Q) (rules : gmap string rule_value) :
  (is_Some (rules !! "knee_angle_min") →
     is_Some (ja !! "left_knee_angle") ∧ is_Some (ja !! "right_knee_angle")) →
  (is_Some (rules !! "elbow_angle_min") →
     is_Some (ja !! "left_elbow_angle") ∧ is_Some (ja !! "right_elbow_angle")) →
  (∀ flag, rules !! "hip_height_above_shoulder" = Some flag →
     truthy flag = true →
     is_Some (lm !! "left_hip") ∧ is_Some (lm !! "right_hip") ∧
     is_Some (lm !! "left_shoulder") ∧ is_Some (lm !! "right_shoulder")) →
  ∃ res, evaluate_pose pose lm ja rules = Return res.
Proof.
  intros HK HE HH. unfold evaluate_pose.
  apply (eval_knees_returns ja rules eval_init) in HK as [st1 ->].
  rewrite bind_Return.
  apply (eval_elbows_returns ja rules st1) in HE as [st2 ->].
  rewrite bind_Return.
  apply (eval_hips_returns lm rules st2) in HH as [st3 ->].
  rewrite bind_Return. eauto.
Qed.

Lemma one_side_below (t l r : Q) :
  ¬ ((t <= l)%Q ∧ (t <= r)%Q) ↔ (l < t)%Q ∨ (r < t)%Q.
Proof.
  split.
  - intros H. destruct (Qlt_le_dec l t) as [?|Hl]; [by left|].
    destruct (Qlt_le_dec r t) as [?|Hr]; [by right|]. tauto.
  - intros [H|H] [Hl Hr]; eapply Qlt_not_le; eauto.
Qed.

(** The evaluation used as a concrete instance below: left knee 175,
    right knee 165, threshold 170. *)
Lemma one_bent_knee_evaluation :
  evaluate_pose "parvatasana" ∅ one_bent_knee knee_rule =
    Return (eval_finish
              (EvalState ["knees_bent"] ∅ {[ "knees_extended" := false ]} 2 0)).
Proof.
  unfold evaluate_pose.
  rewrite (eval_knees_asymmetric one_bent_knee knee_rule eval_init
             (RNum 170) 175 165);
    [ | apply lookup_singleton_eq | apply lookup_insert_eq
      | unfold one_bent_knee; rewrite lookup_insert_ne by discriminate;
        apply lookup_singleton_eq
      | left; split; vm_compute; [discriminate | tauto] ].
  rewrite bind_Return.
  unfold eval_elbows, knee_rule. rewrite lookup_singleton_ne by discriminate.
  rewrite bind_Return.
  unfold eval_hips. rewrite lookup_singleton_ne by discriminate.
  reflexivity.
Qed.


(** The alignment score takes one of nine values, all between 0 and
    100. *)
Theorem alignment_score_values (pose : string) (lm : gmap string point)
    (ja : gmap string Q) (rules : gmap string rule_value) (res : evaluation) :
  evaluate_pose pose lm ja rules = Return res →
  alignment_score res ∈
    [ (0 # 100)%Q; (2000 # 100)%Q; (3333 # 100)%Q; (4000 # 100)%Q;
      (5000 # 100)%Q; (6000 # 100)%Q; (6667 # 100)%Q; (8000 # 100)%Q;
      (10000 # 100)%Q ] ∧
  (0 <= alignment_score res)%Q ∧ (alignment_score res <= 100)%Q.
Proof.
  intros H.
  destruct (evaluate_pose_shape _ _ _ _ _ H)
    as (k & a & e & b & h & c & _ & _ & _ & _ & _ & _ & _ & _ & ->).
  destruct k, a, e, b, h, c; vm_compute;
    (split; [repeat constructor | split; discriminate]).
Qed.

Lemma alignment_score_values_witness :
  ∃ res, evaluate_pose "parvatasana" ∅ one_bent_knee knee_rule = Return res ∧
         (0 <= alignment_score res)%Q ∧ (alignment_score res <= 100)%Q.
Proof.
  eexists. split; [apply one_bent_knee_evaluation|].
  exact (proj2 (alignment_score_values "parvatasana" ∅ one_bent_knee knee_rule
                  _ one_bent_knee_evaluation)).
Defined.

(** Which inputs put which issue on the list. *)
Lemma evaluate_pose_issue_members (pose : string) (lm : gmap string point)
    (ja : gmap string Q) (rules : gmap string rule_value) (res : evaluation) :
  evaluate_pose pose lm ja rules = Return res →
  ("knees_bent" ∈ issues res ↔
     ∃ thr l r, rules !! "knee_angle_min" = Some thr ∧
                ja !! "left_knee_angle" = Some l ∧
                ja !! "right_knee_angle" = Some r ∧
                ((l < num_of thr)%Q ∨ (r < num_of thr)%Q)) ∧
  ("elbows_bent" ∈ issues res ↔
     ∃ thr l r, rules !! "elbow_angle_min" = Some thr ∧
                ja !! "left_elbow_angle" = Some l ∧
                ja !! "right_elbow_angle" = Some r ∧
                ((l < num_of thr)%Q ∨ (r < num_of thr)%Q)) ∧
  ("hips_low" ∈ issues res ↔
     ∃ flag lh rh ls rs,
       rules !! "hip_height_above_shoulder" = Some flag ∧ truthy flag = true ∧
       lm !! "left_hip" = Some lh ∧ lm !! "right_hip" = Some rh ∧
       lm !! "left_shoulder" = Some ls ∧ lm !! "right_shoulder" = Some rs ∧
       (py (point_div (point_add ls rs) 2) <=
        py (point_div (point_add lh rh) 2))%Q).
Proof.
  intros H.
  destruct (evaluate_pose_needs_keys _ _ _ _ _ H) as (KK & KE & KH).
  destruct (evaluate_pose_shape _ _ _ _ _ H)
    as (k & a & e & b & h & c & Hk & Ha & He & Hb & Hh & Hc & Hi & _ & _).
  assert (Kn : k && negb a = true ↔
     ∃ thr l r, rules !! "knee_angle_min" = Some thr ∧
                ja !! "left_knee_angle" = Some l ∧
                ja !! "right_knee_angle" = Some r ∧
                ((l < num_of thr)%Q ∨ (r < num_of thr)%Q)).
  { rewrite andb_true_iff, negb_true_iff. split.
    - intros [Hk1 Ha1]. apply Hk in Hk1. destruct (KK Hk1) as [[l Hl] [r Hr]].
      destruct Hk1 as [thr Hthr]. exists thr, l, r. do 3 (split; [assumption|]).
      apply one_side_below. intros Hboth.
      assert (a = true) by (apply Ha; exists thr, l, r; tauto). congruence.
    - intros (thr & l & r & Hthr & Hl & Hr & Hbelow). split.
      + apply Hk. by eexists.
      + apply not_true_is_false. intros Ha1. apply Ha in Ha1.
        destruct Ha1 as (thr' & l' & r' & Hthr' & Hl' & Hr' & Hboth).
        rewrite Hthr in Hthr'. rewrite Hl in Hl'. rewrite Hr in Hr'.
        injection Hthr' as <-. injection Hl' as <-. injection Hr' as <-.
        by apply one_side_below in Hbelow. }
  assert (El : e && negb b = true ↔
     ∃ thr l r, rules !! "elbow_angle_min" = Some thr ∧
                ja !! "left_elbow_angle" = Some l ∧
                ja !! "right_elbow_angle" = Some r ∧
                ((l < num_of thr)%Q ∨ (r < num_of thr)%Q)).
  { rewrite andb_true_iff, negb_true_iff. split.
    - intros [He1 Hb1]. apply He in He1. destruct (KE He1) as [[l Hl] [r Hr]].
      destruct He1 as [thr Hthr]. exists thr, l, r. do 3 (split; [assumption|]).
      apply one_side_below. intros Hboth.
      assert (b = true) by (apply Hb; exists thr, l, r; tauto). congruence.
    - intros (thr & l & r & Hthr & Hl & Hr & Hbelow). split.
      + apply He. by eexists.
      + apply not_true_is_false. intros Hb1. apply Hb in Hb1.
        destruct Hb1 as (thr' & l' & r' & Hthr' & Hl' & Hr' & Hboth).
        rewrite Hthr in Hthr'. rewrite Hl in Hl'. rewrite Hr in Hr'.
        injection Hthr' as <-. injection Hl' as <-. injection Hr' as <-.
        by apply one_side_below in Hbelow. }
  assert (Hp : h && negb c = true ↔
     ∃ flag lh rh ls rs,
       rules !! "hip_height_above_shoulder" = Some flag ∧ truthy flag = true ∧
       lm !! "left_hip" = Some lh ∧ lm !! "right_hip" = Some rh ∧
       lm !! "left_shoulder" = Some ls ∧ lm !! "right_shoulder" = Some rs ∧
       (py (point_div (point_add ls rs) 2) <=
        py (point_div (point_add lh rh) 2))%Q).
  { rewrite andb_true_iff, negb_true_iff. split.
    - intros [Hh1 Hc1]. pose proof Hh1 as Hh2. apply Hh in Hh1.
      destruct Hh1 as (flag & Hflag & Ht).
      destruct (KH flag Hflag Ht) as ([lh Hlh] & [rh Hrh] & [ls Hls] & [rs Hrs]).
      exists flag, lh, rh, ls, rs. do 6 (split; [assumption|]).
      apply Qnot_lt_le. intros Hlt.
      assert (c = true)
        by (apply Hc; split; [assumption|]; by exists lh, rh, ls, rs).
      congruence.
    - intros (flag & lh & rh & ls & rs & Hflag & Ht & Hlh & Hrh & Hls & Hrs & Hle).
      split.
      + apply Hh. by exists flag.
      + apply not_true_is_false. intros Hc1. apply Hc in Hc1.
        destruct Hc1 as (_ & lh' & rh' & ls' & rs' & Hlh' & Hrh' & Hls' & Hrs' & Hlt).
        rewrite Hlh in Hlh'. rewrite Hrh in Hrh'.
        rewrite Hls in Hls'. rewrite Hrs in Hrs'.
        injection Hlh' as <-. injection Hrh' as <-.
        injection Hls' as <-. injection Hrs' as <-.
        exact (Qlt_not_le _ _ Hlt Hle). }
  rewrite <- Kn, <- El, <- Hp, Hi.
  destruct (k && negb a), (e && negb b), (h && negb c); simpl;
    rewrite ?elem_of_cons, ?elem_of_nil;
    repeat split; intros; try discriminate; try tauto;
    repeat match goal with
           | Hor : _ ∨ _ |- _ => destruct Hor as [Hor|Hor]; try discriminate Hor
           end; try contradiction.
Qed.




(** A result without issues has no failed rule and, if any of the three
    rules applies, the score 100; a result with an issue scores at most
    80.  When none of the three rules applies the score is 0. *)
Theorem issues_and_score_agree (pose : string) (lm : gmap string point)
    (ja : gmap string Q) (rules : gmap string rule_value) (res : evaluation) :
  evaluate_pose pose lm ja rules = Return res →
  (issues res = [] ↔ failed_rules res = ∅) ∧
  (issues res ≠ [] → (alignment_score res <= 80)%Q) ∧
  (issues res = [] →
     is_Some (rules !! "knee_angle_min") ∨
     is_Some (rules !! "elbow_angle_min") ∨
     (∃ flag, rules !! "hip_height_above_shoulder" = Some flag ∧
              truthy flag = true) →
     alignment_score res == 100) ∧
  (rules !! "knee_angle_min" = None → rules !! "elbow_angle_min" = None →
   (∀ flag, rules !! "hip_height_above_shoulder" = Some flag →
            truthy flag = false) →
     issues res = [] ∧ alignment_score res == 0).
Proof.
  intros H.
  destruct (evaluate_pose_shape _ _ _ _ _ H)
    as (k & a & e & b & h & c & Hk & Ha & He & Hb & Hh & Hc & -> & -> & ->).
  split; [|split; [|split]].
  - destruct (k && negb a), (e && negb b), (h && negb c); simpl;
      split; intros E; try reflexivity; try discriminate E;
      exfalso; eapply insert_non_empty; exact E.
  - destruct k, a, e, b, h, c; simpl; intros E; try (by destruct E);
      vm_compute; discriminate.
  - intros Hnone Happl.
    assert (Hany : k || e || h = true).
    { destruct Happl as [Hx | [Hx | Hx]];
        [apply Hk in Hx | apply He in Hx | apply Hh in Hx]; subst;
        rewrite ?orb_true_r; reflexivity. }
    destruct k, a, e, b, h, c; simpl in Hnone, Hany;
      try discriminate Hnone; try discriminate Hany; vm_compute; reflexivity.
  - intros HK HE HH.
    assert (k = false).
    { apply not_true_is_false. intros Hx. apply Hk in Hx as [? Hx]. congruence. }
    assert (e = false).
    { apply not_true_is_false. intros Hx. apply He in Hx as [? Hx]. congruence. }
    assert (h = false).
    { apply not_true_is_false. intros Hx. apply Hh in Hx as (f & Hf & Ht).
      rewrite (HH f Hf) in Ht. discriminate Ht. }
    subst. split; reflexivity.
Qed.

Lemma issues_and_score_agree_witness :
  ∃ res, evaluate_pose "parvatasana" ∅ one_bent_knee knee_rule = Return res ∧
         (alignment_score res <= 80)%Q.
Proof.
  eexists. split; [apply one_bent_knee_evaluation|].
  apply (issues_and_score_agree "parvatasana" ∅ one_bent_knee knee_rule
           _ one_bent_knee_evaluation).
  discriminate.
Defined.

(** When none of [knee_angle_min], [elbow_angle_min] and a true
    [hip_height_above_shoulder] is in the rules, [evaluate_pose] reads
    no input at all: it returns score 0 and no issue for any angles and
    landmarks, also empty ones. *)
Theorem no_applicable_rule_scores_zero (pose : string)
    (lm : gmap string point) (ja : gmap string Q)
    (rules : gmap string rule_value) :
  rules !! "knee_angle_min" = None → rules !! "elbow_angle_min" = None →
  (∀ flag, rules !! "hip_height_above_shoulder" = Some flag →
           truthy flag = false) →
  ∃ res, evaluate_pose pose lm ja rules = Return res ∧
         issues res = [] ∧ alignment_score res == 0 ∧
         passed_rules res = ∅ ∧ failed_rules res = ∅.
Proof.
  intros HK HE HH. unfold evaluate_pose, eval_knees, eval_elbows, eval_hips.
  rewrite HK, HE. rewrite !bind_Return.
  destruct (rules !! "hip_height_above_shoulder") as [flag|] eqn:Hflag.
  - rewrite (HH flag eq_refl). rewrite bind_Return.
    eexists. split; [reflexivity|]. repeat split.
  - rewrite bind_Return. eexists. split; [reflexivity|]. repeat split.
Qed.

Lemma no_applicable_rule_witness :
  ∃ res, evaluate_pose "pranamasana" ∅ ∅ (_get_default_rules "pranamasana")
           = Return res ∧
         issues res = [] ∧ alignment_score res == 0.
Proof.
  destruct (no_applicable_rule_scores_zero "pranamasana" ∅ ∅
              (_get_default_rules "pranamasana"))
    as (res & Hres & Hi & Hs & _).
  - vm_compute. reflexivity.
  - vm_compute. reflexivity.
  - intros flag Hflag. exfalso. vm_compute in Hflag. discriminate Hflag.
  - exists res. repeat split; assumption.
Defined.

End RuleResults.

(** ** Pose lookup, pose identification and landmark metrics *)

Section Landmarks.
Import RuleEngine PhysicsLandmarks Examples.

(** Which issue a concatenation of the three optional issues holds. *)
Lemma issue_membership (x y z : bool) :
  let l := (if x then ["knees_bent"] else []) ++
           (if y then ["elbows_bent"] else []) ++
           (if z then ["hips_low"] else []) in
  ("knees_bent" ∈ l ↔ x = true) ∧
  ("elbows_bent" ∈ l ↔ y = true) ∧
  ("hips_low" ∈ l ↔ z = true).
Proof.
  destruct x, y, z; simpl; rewrite ?elem_of_cons, ?elem_of_nil;
    repeat split; intros; try discriminate; try tauto;
    repeat match goal with
           | Hor : _ ∨ _ |- _ => destruct Hor as [Hor|Hor]; try discriminate Hor
           end; try contradiction.
Qed.

Lemma identify_pose_shape (lm : gmap string point) (name : string) :
  identify_pose lm = Return name →
  ∃ lh rh ls rs,
    lm !! "left_hip" = Some lh ∧ lm !! "right_hip" = Some rh ∧
    lm !! "left_shoulder" = Some ls ∧ lm !! "right_shoulder" = Some rs ∧
    ((name = "parvatasana" ∧
      (py (point_div (point_add lh rh) 2) <
       py (point_div (point_add ls rs) 2) - (1 # 10))%Q) ∨
     (¬ (py (point_div (point_add lh rh) 2) <
         py (point_div (point_add ls rs) 2) - (1 # 10))%Q ∧
      ∃ lw, lm !! "left_wrist" = Some lw ∧
            ((name = "hasta_uttanasana" ∧ (py lw < py ls - (2 # 10))%Q) ∨
             (name = "pranamasana" ∧ ¬ (py lw < py ls - (2 # 10))%Q)))).
Proof.
  unfold identify_pose, getitem.
  destruct (lm !! "left_hip") as [lh|]; [|discriminate].
  destruct (lm !! "right_hip") as [rh|]; [|discriminate].
  destruct (lm !! "left_shoulder") as [ls|]; [|discriminate].
  destruct (lm !! "right_shoulder") as [rs|]; [|discriminate].
  cbn [mbind outcome_bind].
  destruct (Qltb (py (point_div (point_add lh rh) 2))
                 (py (point_div (point_add ls rs) 2) - (1 # 10))) eqn:E1.
  - intros [= <-]. apply Qltb_lt in E1.
    exists lh, rh, ls, rs. repeat split. by left.
  - assert (N1 : ¬ (py (point_div (point_add lh rh) 2) <
                    py (point_div (point_add ls rs) 2) - (1 # 10))%Q).
    { intros Hlt. apply Qltb_lt in Hlt. congruence. }
    destruct (lm !! "left_wrist") as [lw|]; [|discriminate].
    cbn [mbind outcome_bind].
    destruct (Qltb (py lw) (py ls - (2 # 10))) eqn:E2; intros [= <-];
      exists lh, rh, ls, rs; repeat split; right; (split; [exact N1|]);
      exists lw; (split; [reflexivity|]).
    + left. split; [reflexivity|]. by apply Qltb_lt.
    + right. split; [reflexivity|]. intros Hlt. apply Qltb_lt in Hlt. congruence.
Qed.

(** [identify_pose] answers with one of three pose names whenever the
    two hips, the two shoulders and the left wrist are among the
    landmarks; without [left_hip] it raises [KeyError]. *)
Theorem identify_pose_names (lm : gmap string point) :
  (is_Some (lm !! "left_hip") → is_Some (lm !! "right_hip") →
   is_Some (lm !! "left_shoulder") → is_Some (lm !! "right_shoulder") →
   is_Some (lm !! "left_wrist") →
   ∃ name, identify_pose lm = Return name ∧
           name ∈ ["parvatasana"; "hasta_uttanasana"; "pranamasana"]) ∧
  (∀ name, identify_pose lm = Return name →
           name ∈ ["parvatasana"; "hasta_uttanasana"; "pranamasana"]) ∧
  (lm !! "left_hip" = None →
   identify_pose lm = Raise (KeyError "left_hip")).
Proof.
  split; [|split].
  - intros [lh Hlh] [rh Hrh] [ls Hls] [rs Hrs] [lw Hlw].
    unfold identify_pose, getitem. rewrite Hlh, Hrh, Hls, Hrs, Hlw.
    cbn [mbind outcome_bind].
    repeat match goal with
           | |- context [if ?b then _ else _] => destruct b
           end; eexists; (split; [reflexivity|]);
      rewrite !elem_of_cons; tauto.
  - intros name H.
    destruct (identify_pose_shape lm name H)
      as (lh & rh & ls & rs & _ & _ & _ & _ &
          [[-> _] | [_ (lw & _ & [[-> _] | [-> _]])]]);
      rewrite !elem_of_cons; tauto.
  - intros H. unfold identify_pose, getitem. by rewrite H.
Qed.

(** A frame that [identify_pose] takes for parvatasana never gets the
    issue [hips_low] from [evaluate_pose]. *)
Theorem identified_parvatasana_has_no_hips_low
    (pose : string) (lm : gmap string point) (ja : gmap string Q)
    (rules : gmap string rule_value) (res : evaluation) :
  identify_pose lm = Return "parvatasana" →
  evaluate_pose pose lm ja rules = Return res →
  "hips_low" ∉ issues res.
Proof.
  intros Hid Hev Hin.
  destruct (identify_pose_shape lm _ Hid)
    as (lh & rh & ls & rs & Hlh & Hrh & Hls & Hrs & Hcase).
  destruct Hcase as [[_ Hlt] | [_ (lw & _ & [[Hx _] | [Hx _]])]];
    [|discriminate Hx..].
  destruct (evaluate_pose_shape _ _ _ _ _ Hev)
    as (k & a & e & b & h & c & _ & _ & _ & _ & Hh & Hc & Hi & _ & _).
  rewrite Hi in Hin. apply issue_membership in Hin.
  apply andb_true_iff in Hin as [Hh1 Hc1]. apply negb_true_iff in Hc1.
  assert (c = true); [|congruence].
  apply Hc. split; [exact Hh1|]. exists lh, rh, ls, rs.
  do 4 (split; [assumption|]). lra.
Qed.

(** The metric [hip_shoulder_height_diff] is positive exactly when the
    hip rule of [evaluate_pose], if it applies, passes. *)
Theorem height_diff_positive_iff_hips_pass
    (pose : string) (lm : gmap string point) (ja : gmap string Q)
    (rules : gmap string rule_value) (flag : rule_value)
    (metrics : gmap string Q) (res : evaluation) :
  rules !! "hip_height_above_shoulder" = Some flag → truthy flag = true →
  compute_additional_metrics lm = Return metrics →
  evaluate_pose pose lm ja rules = Return res →
  ∃ d, metrics !! "hip_shoulder_height_diff" = Some d ∧
       ((0 < d)%Q ↔ "hips_low" ∉ issues res).
Proof.
  intros Hflag Ht Hm Hev.
  unfold compute_additional_metrics, getitem in Hm.
  destruct (lm !! "left_hip") as [lh|] eqn:Hlh; [|discriminate].
  destruct (lm !! "right_hip") as [rh|] eqn:Hrh; [|discriminate].
  destruct (lm !! "left_shoulder") as [ls|] eqn:Hls; [|discriminate].
  destruct (lm !! "right_shoulder") as [rs|] eqn:Hrs; [|discriminate].
  cbn [mbind outcome_bind] in Hm. injection Hm as <-.
  eexists. split; [apply lookup_singleton_eq|].
  destruct (evaluate_pose_shape _ _ _ _ _ Hev)
    as (k & a & e & b & h & c & _ & _ & _ & _ & Hh & Hc & Hi & _ & _).
  assert (Hh1 : h = true) by (apply Hh; by exists flag).
  rewrite Hi.
  pose proof (issue_membership (k && negb a) (e && negb b) (h && negb c))
    as (_ & _ & Hmem).
  cbv zeta in Hmem. rewrite Hmem, Hh1. simpl.
  rewrite not_true_iff_false, negb_false_iff, Hc.
  split.
  - intros Hd. split; [exact Hh1|]. exists lh, rh, ls, rs.
    do 4 (split; [assumption|]). simpl. lra.
  - intros (_ & lh' & rh' & ls' & rs' & Hlh' & Hrh' & Hls' & Hrs' & Hlt).
    rewrite Hlh in Hlh'. rewrite Hrh in Hrh'.
    rewrite Hls in Hls'. rewrite Hrs in Hrs'.
    injection Hlh' as <-. injection Hrh' as <-.
    injection Hls' as <-. injection Hrs' as <-.
    simpl in Hlt |- *. lra.
Qed.

(** The evaluation used as a concrete instance below: the hip rule on
    landmarks with the hips above the shoulders. *)
Lemma dog_evaluation :
  ∃ res, evaluate_pose "parvatasana" dog_landmarks ∅ hip_rule = Return res.
Proof.
  apply evaluate_pose_returns_of_keys.
  - intros [x Hx]. vm_compute in Hx. discriminate Hx.
  - intros [x Hx]. vm_compute in Hx. discriminate Hx.
  - intros _ _ _. repeat split; eexists; vm_compute; reflexivity.
Qed.

Lemma identify_pose_names_witness :
  ∃ name, identify_pose dog_landmarks = Return name ∧
          name ∈ ["parvatasana"; "hasta_uttanasana"; "pranamasana"].
Proof.
  apply (proj1 (identify_pose_names dog_landmarks));
    eexists; vm_compute; reflexivity.
Defined.

Lemma identified_parvatasana_witness :
  ∃ res, evaluate_pose "parvatasana" dog_landmarks ∅ hip_rule = Return res ∧
         "hips_low" ∉ issues res.
Proof.
  destruct dog_evaluation as [res Hres]. exists res. split; [exact Hres|].
  apply (identified_parvatasana_has_no_hips_low
           "parvatasana" dog_landmarks ∅ hip_rule res).
  - vm_compute. reflexivity.
  - exact Hres.
Defined.

Lemma compute_additional_metrics_returns (lm : gmap string point) :
  is_Some (lm !! "left_hip") → is_Some (lm !! "right_hip") →
  is_Some (lm !! "left_shoulder") → is_Some (lm !! "right_shoulder") →
  ∃ metrics, compute_additional_metrics lm = Return metrics.
Proof.
  intros [lh Hlh] [rh Hrh] [ls Hls] [rs Hrs].
  unfold compute_additional_metrics, getitem.
  rewrite Hlh, Hrh, Hls, Hrs. eexists. reflexivity.
Qed.

Lemma height_diff_witness :
  ∃ metrics res d,
    compute_additional_metrics dog_landmarks = Return metrics ∧
    evaluate_pose "parvatasana" dog_landmarks ∅ hip_rule = Return res ∧
    metrics !! "hip_shoulder_height_diff" = Some d ∧
    ((0 < d)%Q ↔ "hips_low" ∉ issues res).
Proof.
  destruct dog_evaluation as [res Hres].
  destruct (compute_additional_metrics_returns dog_landmarks)
    as [metrics Hm]; [eexists; vm_compute; reflexivity..|].
  destruct (height_diff_positive_iff_hips_pass
              "parvatasana" dog_landmarks ∅ hip_rule (RBool true) metrics res
              (lookup_singleton_eq _ _) eq_refl Hm Hres) as (d & Hd & Hiff).
  exists metrics, res, d. repeat split; try assumption; apply Hiff.
Defined.

Lemma find_pose_listed (sequence : list sequence_entry) (pose : string) :
  (∀ entry, entry ∈ sequence → is_Some (entry !! "asana")) →
  (∃ entry, entry ∈ sequence ∧ entry !! "asana" = Some pose) →
  find_pose sequence pose = Return (_get_default_rules pose).
Proof.
  induction sequence as [|entry sequence IH]; intros Hall (x & Hx & Hpose).
  - by apply elem_of_nil in Hx.
  - simpl. destruct (Hall entry) as [asana Hasana]; [left|].
    rewrite (getitem_Return _ _ _ Hasana), bind_Return.
    destruct (decide (asana = pose)) as [->|Hne].
    + by rewrite bool_decide_eq_true_2.
    + rewrite bool_decide_eq_false_2 by exact Hne.
      apply IH; [intros y Hy; apply Hall; by right|].
      apply elem_of_cons in Hx as [-> | Hx]; [congruence|]. eauto.
Qed.

Lemma find_pose_not_listed (sequence : list sequence_entry) (pose : string) :
  (∀ entry, entry ∈ sequence → is_Some (entry !! "asana")) →
  (∀ entry, entry ∈ sequence → entry !! "asana" ≠ Some pose) →
  find_pose sequence pose = Return ∅.
Proof.
  induction sequence as [|entry sequence IH]; intros Hall Hnone; [reflexivity|].
  simpl. destruct (Hall entry) as [asana Hasana]; [left|].
  rewrite (getitem_Return _ _ _ Hasana), bind_Return.
  rewrite bool_decide_eq_false_2.
  - apply IH; intros y Hy; [apply Hall | apply Hnone]; by right.
  - intros ->. apply (Hnone entry); [left | exact Hasana].
Qed.

Lemma find_pose_result (sequence : list sequence_entry) (pose : string)
    (r : gmap string rule_value) :
  find_pose sequence pose = Return r → r = ∅ ∨ r = _get_default_rules pose.
Proof.
  induction sequence as [|entry sequence IH]; simpl.
  - intros [= <-]. by left.
  - unfold getitem. destruct (entry !! "asana") as [asana|]; [|discriminate].
    rewrite bind_Return. case_bool_decide; [|exact IH].
    intros [= <-]. by right.
Qed.

Lemma default_rules_names (pose : string) :
  _get_default_rules pose ≠ ∅ →
  pose ∈ ["parvatasana"; "hasta_uttanasana"; "bhujangasana";
          "ashwa_sanchalanasana"; "pranamasana"].
Proof.
  intros Hne. rewrite !elem_of_cons.
  destruct (decide (pose = "parvatasana")); [tauto|].
  destruct (decide (pose = "hasta_uttanasana")); [tauto|].
  destruct (decide (pose = "bhujangasana")); [tauto|].
  destruct (decide (pose = "ashwa_sanchalanasana")); [tauto|].
  destruct (decide (pose = "pranamasana")); [tauto|].
  exfalso. apply Hne. unfold _get_default_rules. cbv zeta.
  rewrite !lookup_insert_ne by congruence.
  rewrite lookup_singleton_ne by congruence. reflexivity.
Qed.

(** [get_pose_rules] gives rules only for a pose that is one of the
    five poses with default rules; a knowledge base without the
    [surya_namaskar] entry knows no pose.  When every entry of the
    sequence names its asana, a listed pose gets its default rules and
    an unlisted one the empty rule set. *)
Theorem get_pose_rules_by_sequence (kb : rules_kb) (pose : string) :
  (∀ r, get_pose_rules kb pose = Return r → r ≠ ∅ →
        r = _get_default_rules pose ∧
        pose ∈ ["parvatasana"; "hasta_uttanasana"; "bhujangasana";
                "ashwa_sanchalanasana"; "pranamasana"]) ∧
  (kb !! "surya_namaskar" = None → get_pose_rules kb pose = Return ∅) ∧
  (∀ sn ch sequence,
     kb !! "surya_namaskar" = Some sn → sn !! "chakras" = Some ch →
     ch !! "sequence" = Some sequence →
     (∀ entry, entry ∈ sequence → is_Some (entry !! "asana")) →
     ((∃ entry, entry ∈ sequence ∧ entry !! "asana" = Some pose) →
        get_pose_rules kb pose = Return (_get_default_rules pose)) ∧
     ((∀ entry, entry ∈ sequence → entry !! "asana" ≠ Some pose) →
        get_pose_rules kb pose = Return ∅)).
Proof.
  split; [|split].
  - intros r Hr Hne. unfold get_pose_rules in Hr.
    apply find_pose_result in Hr as [-> | ->]; [contradiction|].
    split; [reflexivity|]. by apply default_rules_names.
  - intros H. unfold get_pose_rules. rewrite H. reflexivity.
  - intros sn ch sequence Hsn Hch Hseq Hall. unfold get_pose_rules.
    rewrite Hsn. simpl. rewrite Hch. simpl. rewrite Hseq. simpl.
    split; intros H; [by apply find_pose_listed | by apply find_pose_not_listed].
Qed.

Lemma rules_kb_example_entries :
  ∀ entry : sequence_entry,
    entry ∈ [ ({[ "asana" := "pranamasana" ]} : sequence_entry);
              {[ "asana" := "hasta_padasana" ]};
              {[ "asana" := "parvatasana" ]} ] →
    is_Some (entry !! "asana").
Proof.
  intros entry. rewrite !elem_of_cons, elem_of_nil.
  intros [-> | [-> | [-> | []]]]; eexists; apply lookup_singleton_eq.
Qed.

Lemma rules_kb_example_parvatasana :
  get_pose_rules rules_kb_example "parvatasana"
    = Return (_get_default_rules "parvatasana").
Proof.
  unfold get_pose_rules, rules_kb_example.
  rewrite lookup_singleton_eq. cbn [from_option id].
  rewrite lookup_singleton_eq. cbn [from_option id].
  rewrite lookup_singleton_eq. cbn [from_option id].
  apply find_pose_listed; [apply rules_kb_example_entries|].
  exists {[ "asana" := "parvatasana" ]}. split; [|apply lookup_singleton_eq].
  rewrite !elem_of_cons. tauto.
Qed.

Lemma default_parvatasana_rules_nonempty : _get_default_rules "parvatasana" ≠ ∅.
Proof.
  intros H. apply (f_equal (fun m => m !! "knee_angle_min")) in H.
  vm_compute in H. discriminate H.
Qed.

Lemma get_pose_rules_witness :
  get_pose_rules rules_kb_example "parvatasana"
    = Return (_get_default_rules "parvatasana") ∧
  get_pose_rules rules_kb_example "bhujangasana" = Return ∅.
Proof.
  destruct (get_pose_rules_by_sequence rules_kb_example "parvatasana")
    as (_ & _ & H1).
  destruct (get_pose_rules_by_sequence rules_kb_example "bhujangasana")
    as (_ & _ & H2).
  split.
  - eapply H1; [apply lookup_singleton_eq.. | apply rules_kb_example_entries |].
    exists {[ "asana" := "parvatasana" ]}. split; [|apply lookup_singleton_eq].
    rewrite !elem_of_cons. tauto.
  - eapply H2; [apply lookup_singleton_eq.. | apply rules_kb_example_entries |].
    intros entry. rewrite !elem_of_cons, elem_of_nil.
    intros [-> | [-> | [-> | []]]]; rewrite lookup_singleton_eq; discriminate.
Defined.

End Landmarks.

(** ** Safety adaptation: refusal, keys and leniency *)

Section SafetyResults.
Import RuleEngine SafetyEngine Examples.

Lemma check_conditions_spec (cl conds : list string) :
  (check_conditions cl conds = (true, None) ∧ ∀ c, c ∈ conds → c ∉ cl) ∨
  (∃ pre c post,
     conds = pre ++ c :: post ∧ c ∈ cl ∧ (∀ x, x ∈ pre → x ∉ cl) ∧
     check_conditions cl conds =
       (false, Some ("Pose contraindicated due to " +:+ c))).
Proof.
  induction conds as [|d conds IH]; simpl.
  - left. split; [reflexivity|]. intros c Hc. by apply elem_of_nil in Hc.
  - destruct (decide (d ∈ cl)) as [Hd|Hd].
    + rewrite bool_decide_eq_true_2 by exact Hd. right.
      exists [], d, conds. repeat split; [exact Hd|].
      intros x Hx. by apply elem_of_nil in Hx.
    + rewrite bool_decide_eq_false_2 by exact Hd.
      destruct IH as [[-> Hall] | (pre & c & post & -> & Hc & Hpre & ->)].
      * left. split; [reflexivity|].
        intros c [-> | Hc]%elem_of_cons; [exact Hd | by apply Hall].
      * right. exists (d :: pre), c, post. repeat split; [exact Hc|].
        intros x [-> | Hx]%elem_of_cons; [exact Hd | by apply Hpre].
Qed.

(** A pose is refused exactly when it has an entry whose
    contraindication list holds one of the user's conditions.  The
    refusal is risk ["high"] with empty rules, and its reason names the
    first such condition in the user's list; an allowed pose is risk
    ["low"] without reason or modification. *)
Theorem refusal_characterised
    (kb : gmap string pose_data) (pose : string)
    (base : gmap string rule_value) (upm : UserProfileManager) :
  (pose_allowed (adapt_rules kb pose base upm) = false ↔
     ∃ pd cl c, kb !! pose = Some pd ∧ pd !! "contraindications" = Some cl ∧
                c ∈ get_conditions upm ∧ c ∈ cl) ∧
  (pose_allowed (adapt_rules kb pose base upm) = false →
     ∃ pd cl pre c post,
       kb !! pose = Some pd ∧ pd !! "contraindications" = Some cl ∧
       get_conditions upm = pre ++ c :: post ∧ c ∈ cl ∧
       (∀ x, x ∈ pre → x ∉ cl) ∧
       adapt_rules kb pose base upm =
         Adaptation false (Some ("Pose contraindicated due to " +:+ c)) ∅
           [Some ("Pose contraindicated due to " +:+ c)] "high") ∧
  (pose_allowed (adapt_rules kb pose base upm) = true →
     risk_level (adapt_rules kb pose base upm) = "low" ∧
     reason (adapt_rules kb pose base upm) = None ∧
     safety_modifications (adapt_rules kb pose base upm) = []).
Proof.
  unfold adapt_rules, _get_pose_data, _check_contraindications.
  destruct (kb !! pose) as [pd|] eqn:Hpd.
  - destruct (decide (pd = ∅)) as [->|Hne].
    + rewrite bool_decide_eq_true_2 by reflexivity. simpl.
      split; [split; [discriminate|] | split; [discriminate | by intros]].
      intros (pd' & cl & c & [= <-] & Hcl & _).
      by rewrite lookup_empty in Hcl.
    + rewrite bool_decide_eq_false_2 by exact Hne.
      destruct (pd !! "contraindications") as [cl|] eqn:Hcl; simpl.
      * destruct (check_conditions_spec cl (get_conditions upm))
          as [[-> Hall] | (pre & c & post & Hconds & Hc & Hpre & ->)]; simpl.
        -- split; [split; [discriminate|] | split; [discriminate | by intros]].
           intros (pd' & cl' & c & [= <-] & Hcl' & Hin & Hin').
           rewrite Hcl in Hcl'. injection Hcl' as <-.
           exfalso. by apply (Hall c).
        -- split; [split; [|reflexivity] | split; [|discriminate]].
           ++ intros _. exists pd, cl, c. repeat split; try assumption.
              rewrite Hconds. apply elem_of_app. right. left.
           ++ intros _. exists pd, cl, pre, c, post. by repeat split.
      * destruct (check_conditions_spec [] (get_conditions upm))
          as [[-> Hall] | (pre & c & post & _ & Hc & _)];
          [|by apply elem_of_nil in Hc]. simpl.
        split; [split; [discriminate|] | split; [discriminate | by intros]].
        intros (pd' & cl' & c & [= <-] & Hcl' & _). congruence.
  - simpl.
    split; [split; [discriminate|] | split; [discriminate | by intros]].
    intros (pd' & cl' & c & [=] & _).
Qed.

Lemma refusal_witness :
  ∃ c, reason
         (adapt_rules safety_kb "parvatasana" knee_rule
            (new_manager (profile_of "advanced" ["back_pain"; "heart_ailments";
                                                 "high_bp"])))
       = Some ("Pose contraindicated due to " +:+ c).
Proof.
  destruct (proj1 (proj2 (refusal_characterised safety_kb "parvatasana" knee_rule
              (new_manager (profile_of "advanced" ["back_pain"; "heart_ailments";
                                                   "high_bp"]))))
              ltac:(vm_compute; reflexivity))
    as (pd & cl & pre & c & post & _ & _ & _ & _ & _ & Heq).
  exists c. rewrite Heq. reflexivity.
Defined.

Lemma adapt_value_no_angle (tol : Q) (k : string) (v : rule_value) :
  contains "angle" k = false → adapt_value tol k v = v.
Proof. unfold adapt_value. by intros ->. Qed.

(** For an allowed pose the adapted rules are the base rules or the
    base rules with [adapt_value] applied to every entry. *)
Lemma adapt_rules_allowed_cases
    (kb : gmap string pose_data) (pose : string)
    (base : gmap string rule_value) (upm : UserProfileManager) :
  pose_allowed (adapt_rules kb pose base upm) = true →
  adapted_rules (adapt_rules kb pose base upm) = base ∨
  ∀ k, adapted_rules (adapt_rules kb pose base upm) !! k =
         adapt_value (angle_tolerance_of (get_level upm)) k <$> base !! k.
Proof.
  intros Hallowed.
  destruct (kb !! pose) as [pd|] eqn:Hpd;
    [destruct (decide (pd = ∅)) as [->|Hne]|].
  - left. by rewrite adapt_rules_no_data by (right; exact Hpd).
  - right. intros k. by eapply adapt_rules_allowed_lookup.
  - left. by rewrite adapt_rules_no_data by (left; exact Hpd).
Qed.

(** Adaptation of an allowed pose keeps the set of rule keys and leaves
    every rule whose key does not contain [angle] as it is, for every
    level. *)
Theorem adaptation_keeps_keys
    (kb : gmap string pose_data) (pose : string)
    (base : gmap string rule_value) (upm : UserProfileManager) :
  pose_allowed (adapt_rules kb pose base upm) = true →
  dom (adapted_rules (adapt_rules kb pose base upm)) = dom base ∧
  (∀ k, contains "angle" k = false →
        adapted_rules (adapt_rules kb pose base upm) !! k = base !! k).
Proof.
  intros Hallowed.
  destruct (adapt_rules_allowed_cases kb pose base upm Hallowed) as [-> | Hk];
    [split; [reflexivity | by intros]|].
  split.
  - apply set_eq. intros k. rewrite !elem_of_dom, Hk. apply fmap_is_Some.
  - intros k Hangle. rewrite Hk.
    destruct (base !! k) as [v|]; [|reflexivity]. simpl.
    by rewrite adapt_value_no_angle.
Qed.

Lemma adaptation_keeps_keys_witness :
  dom (adapted_rules
         (adapt_rules safety_kb "parvatasana" (_get_default_rules "parvatasana")
            (new_manager (profile_of "beginner" ["back_pain"]))))
  = dom (_get_default_rules "parvatasana").
Proof.
  apply (adaptation_keeps_keys safety_kb "parvatasana").
  vm_compute. reflexivity.
Defined.

(** Adaptation of an allowed pose does not change which inputs
    [evaluate_pose] needs: it returns on the adapted rules exactly when
    it returns on the base rules. *)
Theorem adaptation_keeps_evaluation_defined
    (kb : gmap string pose_data) (pose : string)
    (base : gmap string rule_value) (upm : UserProfileManager)
    (lm : gmap string point) (ja : gmap string Q) :
  pose_allowed (adapt_rules kb pose base upm) = true →
  ((∃ res, evaluate_pose pose lm ja
             (adapted_rules (adapt_rules kb pose base upm)) = Return res) ↔
   (∃ res, evaluate_pose pose lm ja base = Return res)).
Proof.
  intros Hallowed.
  destruct (adapt_rules_allowed_cases kb pose base upm Hallowed) as [-> | Hk];
    [reflexivity|].
  assert (Hhip : adapted_rules (adapt_rules kb pose base upm)
                   !! "hip_height_above_shoulder"
                 = base !! "hip_height_above_shoulder").
  { rewrite Hk. destruct (base !! _) as [v|]; [|reflexivity]. simpl.
    rewrite adapt_value_no_angle; [reflexivity | vm_compute; reflexivity]. }
  assert (Hsome : ∀ k, is_Some (adapted_rules (adapt_rules kb pose base upm) !! k)
                       ↔ is_Some (base !! k)).
  { intros k. rewrite Hk. apply fmap_is_Some. }
  split; intros [res H]; apply evaluate_pose_needs_keys in H as (HK & HE & HH);
    apply evaluate_pose_returns_of_keys.
  - intros Hx. apply HK, Hsome, Hx.
  - intros Hx. apply HE, Hsome, Hx.
  - intros flag Hflag. apply HH. by rewrite Hhip.
  - intros Hx. apply HK, Hsome, Hx.
  - intros Hx. apply HE, Hsome, Hx.
  - intros flag Hflag. apply HH. by rewrite <- Hhip.
Qed.

Lemma adaptation_keeps_evaluation_witness :
  (∃ res, evaluate_pose "parvatasana" ∅ one_bent_knee
            (adapted_rules
               (adapt_rules safety_kb "parvatasana" knee_rule
                  (new_manager (profile_of "beginner" ["back_pain"]))))
          = Return res).
Proof.
  apply (adaptation_keeps_evaluation_defined safety_kb "parvatasana" knee_rule).
  - vm_compute. reflexivity.
  - eexists. apply one_bent_knee_evaluation.
Defined.

(** Lower thresholds, same hip flag: every issue found is also found
    under the higher thresholds. *)
Lemma lenient_rules_fewer_issues (pose : string) (lm : gmap string point)
    (ja : gmap string Q) (rules1 rules2 : gmap string rule_value)
    (res1 res2 : evaluation) :
  (∀ t2, rules2 !! "knee_angle_min" = Some t2 →
     ∃ t1, rules1 !! "knee_angle_min" = Some t1 ∧ (num_of t2 <= num_of t1)%Q) →
  (∀ t2, rules2 !! "elbow_angle_min" = Some t2 →
     ∃ t1, rules1 !! "elbow_angle_min" = Some t1 ∧ (num_of t2 <= num_of t1)%Q) →
  rules2 !! "hip_height_above_shoulder" = rules1 !! "hip_height_above_shoulder" →
  evaluate_pose pose lm ja rules1 = Return res1 →
  evaluate_pose pose lm ja rules2 = Return res2 →
  ∀ i, i ∈ issues res2 → i ∈ issues res1.
Proof.
  intros HK HE HH H1 H2 i Hi.
  destruct (evaluate_pose_issue_members _ _ _ _ _ H1) as (K1 & E1 & P1).
  destruct (evaluate_pose_issue_members _ _ _ _ _ H2) as (K2 & E2 & P2).
  assert (Hname : i = "knees_bent" ∨ i = "elbows_bent" ∨ i = "hips_low").
  { destruct (evaluate_pose_shape _ _ _ _ _ H2)
      as (k & a & e & b & h & c & _ & _ & _ & _ & _ & _ & Hiss & _ & _).
    rewrite Hiss in Hi.
    destruct (k && negb a), (e && negb b), (h && negb c); simpl in Hi;
      rewrite ?elem_of_cons, ?elem_of_nil in Hi; tauto. }
  destruct Hname as [-> | [-> | ->]].
  - apply K2 in Hi as (t2 & l & r & Ht2 & Hl & Hr & Hbelow).
    destruct (HK t2 Ht2) as (t1 & Ht1 & Hle).
    apply K1. exists t1, l, r. do 3 (split; [assumption|]).
    destruct Hbelow; [left | right]; lra.
  - apply E2 in Hi as (t2 & l & r & Ht2 & Hl & Hr & Hbelow).
    destruct (HE t2 Ht2) as (t1 & Ht1 & Hle).
    apply E1. exists t1, l, r. do 3 (split; [assumption|]).
    destruct Hbelow; [left | right]; lra.
  - apply P2 in Hi as (flag & lh & rh & ls & rs & Hflag & Hrest).
    apply P1. exists flag, lh, rh, ls, rs. split; [congruence | exact Hrest].
Qed.

(** With the same conditions, the adapted rules of two users are equal
    or are both the base rules shifted entry by entry. *)
Lemma adapt_rules_two_users
    (kb : gmap string pose_data) (pose : string)
    (base : gmap string rule_value) (upm1 upm2 : UserProfileManager) :
  get_conditions upm1 = get_conditions upm2 →
  adapted_rules (adapt_rules kb pose base upm1) =
    adapted_rules (adapt_rules kb pose base upm2) ∨
  ∀ k, adapted_rules (adapt_rules kb pose base upm1) !! k =
         adapt_value (angle_tolerance_of (get_level upm1)) k <$> base !! k ∧
       adapted_rules (adapt_rules kb pose base upm2) !! k =
         adapt_value (angle_tolerance_of (get_level upm2)) k <$> base !! k.
Proof.
  intros Hconds. unfold adapt_rules, _get_pose_data, _check_contraindications.
  rewrite Hconds. destruct (kb !! pose) as [pd|]; [|by left].
  case_bool_decide; [by left|].
  destruct (check_conditions _ (get_conditions upm2)) as [[|] r]; simpl;
    [|by left].
  right. intros k. rewrite !map_lookup_imap.
  by destruct (base !! k).
Qed.

Lemma adapt_value_pair_min (tol : Q) (v : rule_value) :
  adapt_value tol "knee_angle_min" v = RNum (num_of v - tol) ∧
  adapt_value tol "elbow_angle_min" v = RNum (num_of v - tol) ∧
  adapt_value tol "hip_height_above_shoulder" v = v.
Proof. repeat split. Qed.

(** A stricter level never hides an issue: with the same conditions,
    every issue reported under the rules adapted for an intermediate
    user is reported for an advanced user, and every issue reported for
    a beginner is reported for an intermediate and for an advanced
    user. *)
Theorem stricter_level_reports_more
    (kb : gmap string pose_data) (pose : string)
    (base : gmap string rule_value) (strict lenient : UserProfileManager)
    (lm : gmap string point) (ja : gmap string Q)
    (res_strict res_lenient : evaluation) :
  get_conditions strict = get_conditions lenient →
  (get_level strict = "advanced" ∧ get_level lenient = "intermediate") ∨
  (get_level strict = "intermediate" ∧ get_level lenient = "beginner") ∨
  (get_level strict = "advanced" ∧ get_level lenient = "beginner") →
  evaluate_pose pose lm ja (adapted_rules (adapt_rules kb pose base strict))
    = Return res_strict →
  evaluate_pose pose lm ja (adapted_rules (adapt_rules kb pose base lenient))
    = Return res_lenient →
  ∀ i, i ∈ issues res_lenient → i ∈ issues res_strict.
Proof.
  intros Hconds Hlevels Hs Hl.
  assert (Htol : (angle_tolerance_of (get_level strict) <=
                  angle_tolerance_of (get_level lenient))%Q).
  { destruct Hlevels as [[-> ->] | [[-> ->] | [-> ->]]];
      vm_compute; discriminate. }
  destruct (adapt_rules_two_users kb pose base strict lenient Hconds)
    as [Heq | Hk].
  - rewrite Heq in Hs. rewrite Hs in Hl. by injection Hl as ->.
  - eapply (lenient_rules_fewer_issues pose lm ja _ _ _ _ _ _ _ Hs Hl).
    Unshelve.
    + intros t2. rewrite (proj2 (Hk _)), (proj1 (Hk _)).
      destruct (base !! "knee_angle_min") as [v|]; [|discriminate]. simpl.
      intros [= <-]. eexists. split; [reflexivity|].
      rewrite !(proj1 (adapt_value_pair_min _ v)). simpl. lra.
    + intros t2. rewrite (proj2 (Hk _)), (proj1 (Hk _)).
      destruct (base !! "elbow_angle_min") as [v|]; [|discriminate]. simpl.
      intros [= <-]. eexists. split; [reflexivity|].
      rewrite !(proj1 (proj2 (adapt_value_pair_min _ v))). simpl. lra.
    + rewrite (proj2 (Hk _)), (proj1 (Hk _)).
      destruct (base !! "hip_height_above_shoulder") as [v|]; [|reflexivity].
      simpl. by rewrite !(proj2 (proj2 (adapt_value_pair_min _ v))).
Qed.

(** The knee rule adapted for a level, on an allowed pose. *)
Lemma adapted_knee_rule_allowed (lvl : string) :
  pose_allowed (adapt_rules safety_kb "parvatasana" knee_rule
                  (new_manager (profile_of lvl ["back_pain"]))) = true.
Proof.
  unfold adapt_rules, _get_pose_data, safety_kb.
  rewrite lookup_insert_eq.
  rewrite bool_decide_eq_false_2 by apply map_non_empty_singleton.
  reflexivity.
Qed.

(** The evaluations used as concrete instances below: knee angles under
    the knee rule adapted for a level. *)
Lemma adapted_knee_evaluation (lvl : string) (ja : gmap string Q) :
  is_Some (ja !! "left_knee_angle") → is_Some (ja !! "right_knee_angle") →
  ∃ res, evaluate_pose "parvatasana" ∅ ja
           (adapted_rules
              (adapt_rules safety_kb "parvatasana" knee_rule
                 (new_manager (profile_of lvl ["back_pain"]))))
         = Return res.
Proof.
  intros Hl Hr.
  assert (Hother : ∀ k, k ≠ "knee_angle_min" →
    adapted_rules (adapt_rules safety_kb "parvatasana" knee_rule
                     (new_manager (profile_of lvl ["back_pain"]))) !! k = None).
  { intros k Hk.
    destruct (adapt_rules_allowed_cases _ _ _ _ (adapted_knee_rule_allowed lvl))
      as [-> | ->]; unfold knee_rule; by rewrite lookup_singleton_ne. }
  apply evaluate_pose_returns_of_keys.
  - intros _. by split.
  - intros [x Hx]. rewrite Hother in Hx by discriminate. discriminate Hx.
  - intros flag Hflag. rewrite Hother in Hflag by discriminate.
    discriminate Hflag.
Qed.

Lemma stricter_level_witness :
  ∃ res_strict res_lenient,
    evaluate_pose "parvatasana" ∅ both_bent_knees
      (adapted_rules
         (adapt_rules safety_kb "parvatasana" knee_rule
            (new_manager (profile_of "advanced" ["back_pain"]))))
      = Return res_strict ∧
    evaluate_pose "parvatasana" ∅ both_bent_knees
      (adapted_rules
         (adapt_rules safety_kb "parvatasana" knee_rule
            (new_manager (profile_of "beginner" ["back_pain"]))))
      = Return res_lenient ∧
    "knees_bent" ∈ issues res_lenient ∧
    "knees_bent" ∈ issues res_strict.
Proof.
  destruct (adapted_knee_evaluation "advanced" both_bent_knees) as [rs Hs];
    [eexists; vm_compute; reflexivity..|].
  destruct (adapted_knee_evaluation "beginner" both_bent_knees) as [rl Hl];
    [eexists; vm_compute; reflexivity..|].
  exists rs, rl. split; [exact Hs|]. split; [exact Hl|].
  assert (Hin : "knees_bent" ∈ issues rl).
  { apply (evaluate_pose_issue_members _ _ _ _ _ Hl).
    exists (RNum 160), 150%Q, 150%Q.
    repeat split; try (vm_compute; reflexivity). left. reflexivity. }
  split; [exact Hin|].
  apply (stricter_level_reports_more safety_kb "parvatasana" knee_rule
           (new_manager (profile_of "advanced" ["back_pain"]))
           (new_manager (profile_of "beginner" ["back_pain"]))
           ∅ both_bent_knees rs rl eq_refl).
  - right. right. split; reflexivity.
  - exact Hs.
  - exact Hl.
  - exact Hin.
Defined.

End SafetyResults.

(** ** Corrections and coaching sentences *)

Section Coaching.
Import CorrectionEngine LLMCoaching.

Lemma map_issues_omap (lib : gmap string string) (issues : list string) :
  map_issues lib issues = omap (fun i => lib !! i) issues.
Proof.
  induction issues as [|i issues IH]; [reflexivity|]. simpl.
  destruct (lib !! i); by rewrite IH.
Qed.

Lemma length_map_issues (lib : gmap string string) (issues : list string) :
  (length (map_issues lib issues) ≤ length issues)%nat.
Proof.
  induction issues as [|i issues IH]; simpl; [lia|].
  destruct (lib !! i); simpl; lia.
Qed.

(** For a pose with an entry and a non-empty issue list, the verbal
    corrections are the library phrases of the issues, in the order of
    the issues; an issue without a phrase is left out, and nothing else
    is added. *)
Theorem corrections_follow_the_library
    (kb : gmap string pose_knowledge) (pose : string) (issues : list string)
    (pk : gmap string (gmap string string)) :
  kb !! pose = Some pk → pk ≠ ∅ → issues ≠ [] →
  verbal_corrections (generate_corrections kb pose issues) =
    omap (fun i => default ∅ (pk !! "correction_library") !! i) issues ∧
  (length (verbal_corrections (generate_corrections kb pose issues))
     ≤ length issues)%nat ∧
  (∀ phrase,
     phrase ∈ verbal_corrections (generate_corrections kb pose issues) ↔
     ∃ i, i ∈ issues ∧
          default ∅ (pk !! "correction_library") !! i = Some phrase) ∧
  biomechanical_issues (generate_corrections kb pose issues) = issues.
Proof.
  intros Hpk Hne Hissues. unfold generate_corrections. rewrite Hpk.
  rewrite bool_decide_eq_false_2 by exact Hne.
  destruct issues as [|i issues]; [contradiction|].
  cbn [verbal_corrections biomechanical_issues].
  split; [apply map_issues_omap|]. split; [apply length_map_issues|].
  split; [|reflexivity].
  intros phrase. rewrite map_issues_omap. apply list_elem_of_omap.
Qed.

Lemma corrections_follow_the_library_witness :
  verbal_corrections
    (generate_corrections
       {[ "parvatasana" :=
            {[ "correction_library" :=
                 {[ "knees_bent" := "Straighten your knees." ]} ]} ]}
       "parvatasana" ["elbows_bent"; "knees_bent"])
  = omap (fun i => default ∅
                     (({[ "correction_library" :=
                            {[ "knees_bent" := "Straighten your knees." ]} ]}
                        : gmap string (gmap string string))
                      !! "correction_library") !! i)
         ["elbows_bent"; "knees_bent"].
Proof.
  eapply (proj1 (corrections_follow_the_library _ _ _ _ _ _ _)).
  Unshelve.
  - apply lookup_singleton_eq.
  - apply map_non_empty_singleton.
  - discriminate.
Defined.

(** [generate_corrections] always hands back the pose name and the
    issue list it was given, and its list of verbal corrections is
    empty only for a known pose whose issues all lack a phrase. *)
Theorem corrections_echo_and_emptiness
    (kb : gmap string pose_knowledge) (pose : string) (issues : list string) :
  pose_name (generate_corrections kb pose issues) = pose ∧
  biomechanical_issues (generate_corrections kb pose issues) = issues ∧
  (verbal_corrections (generate_corrections kb pose issues) = [] ↔
     ∃ pk, kb !! pose = Some pk ∧ pk ≠ ∅ ∧ issues ≠ [] ∧
           ∀ i, i ∈ issues →
                default ∅ (pk !! "correction_library") !! i = None).
Proof.
  unfold generate_corrections.
  destruct (kb !! pose) as [pk|] eqn:Hpk.
  - destruct (decide (pk = ∅)) as [->|Hne].
    + rewrite bool_decide_eq_true_2 by reflexivity. simpl.
      repeat split; [discriminate|].
      intros (pk' & [= <-] & Hne & _). contradiction.
    + rewrite bool_decide_eq_false_2 by exact Hne.
      destruct issues as [|i issues]; simpl.
      * repeat split; [discriminate|].
        intros (_ & _ & _ & Hi & _). contradiction.
      * repeat split.
        -- intros Hnil. exists pk. repeat split; [exact Hne | discriminate|].
           intros j Hj.
           destruct (default ∅ (pk !! "correction_library") !! j) as [p|] eqn:Hp;
             [|reflexivity].
           exfalso.
           assert (Hin : p ∈ map_issues (default ∅ (pk !! "correction_library"))
                                (i :: issues)).
           { rewrite map_issues_omap. apply list_elem_of_omap. eauto. }
           simpl in Hin. rewrite Hnil in Hin. by apply elem_of_nil in Hin.
        -- intros (pk' & [= <-] & _ & _ & Hall).
           change (map_issues (default ∅ (pk !! "correction_library"))
                     (i :: issues) = []).
           destruct (map_issues _ (i :: issues)) as [|p ps] eqn:Hm;
             [reflexivity|].
           assert (Hin : p ∈ map_issues (default ∅ (pk !! "correction_library"))
                                (i :: issues))
             by (rewrite Hm; left).
           rewrite map_issues_omap in Hin.
           apply list_elem_of_omap in Hin as (j & Hj & Hp).
           rewrite (Hall j Hj) in Hp. discriminate Hp.
  - simpl. repeat split; [discriminate|].
    intros (pk' & [=] & _).
Qed.

Lemma fallback_generation_defined (engine : LLMCoachingEngine)
    (corrections : list string) :
  (1 ≤ length corrections ≤ 3)%nat →
  is_Some (_fallback_generation engine corrections).
Proof.
  intros Hlen. unfold _fallback_generation.
  destruct corrections as [|c0 [|c1 [|c2 [|c3 rest]]]]; simpl in *;
    try lia; by eexists.
Qed.

(** [generate_coaching] always produces a sentence: every subscript of
    the rule-based fallback is within the corrections it is given.  For
    an empty issue list the sentence is the fixed affirmation, and only
    the first three issues are ever looked at. *)
Theorem generate_coaching_always_answers (engine : LLMCoachingEngine)
    (pose : string) (issues : list string) (tone : string) :
  is_Some (generate_coaching engine pose issues tone) ∧
  (issues = [] →
     generate_coaching engine pose issues tone =
       Some "Excellent alignment. Maintain steady breathing.") ∧
  generate_coaching engine pose (take 3 issues) tone =
    generate_coaching engine pose issues tone.
Proof.
  split; [|split].
  - unfold generate_coaching. destruct issues as [|i issues]; [by eexists|].
    destruct (chat_completion engine _); [by eexists|].
    apply fallback_generation_defined.
    rewrite length_fmap, length_take. cbn [length]. lia.
  - intros ->. reflexivity.
  - unfold generate_coaching. destruct issues as [|i issues]; [reflexivity|].
    change (take 3 (i :: issues)) with (i :: take 2 issues).
    change (i :: take 2 issues) with (take 3 (i :: issues)) at 2 3.
    by rewrite take_idemp.
Qed.

End Coaching.

(** ** The stateless evaluation pipeline *)

Section Session.
Import RuleEngine SafetyEngine LLMCoaching SessionManager Examples.

Lemma adapt_rules_risk_level
    (kb : gmap string pose_data) (pose : string)
    (base : gmap string rule_value) (upm : UserProfileManager) :
  SafetyEngine.risk_level (adapt_rules kb pose base upm) =
    if pose_allowed (adapt_rules kb pose base upm) then "low" else "high".
Proof.
  unfold adapt_rules. destruct (_get_pose_data kb pose) as [pd|]; [|reflexivity].
  case_bool_decide; [reflexivity|].
  by destruct (_check_contraindications pd upm) as [[|] r].
Qed.

Lemma adapt_rules_refused
    (kb : gmap string pose_data) (pose : string)
    (base : gmap string rule_value) (upm : UserProfileManager)
    (pd : pose_data) (cl : list string) (c : string) :
  kb !! pose = Some pd → pd !! "contraindications" = Some cl →
  c ∈ get_conditions upm → c ∈ cl →
  ∃ c', c' ∈ get_conditions upm ∧ c' ∈ cl ∧
        adapt_rules kb pose base upm =
          Adaptation false (Some ("Pose contraindicated due to " +:+ c')) ∅
            [Some ("Pose contraindicated due to " +:+ c')] "high".
Proof.
  intros Hpd Hcl Hc Hin.
  assert (Hne : pd ≠ ∅) by (intros ->; by rewrite lookup_empty in Hcl).
  unfold adapt_rules, _get_pose_data. rewrite Hpd.
  rewrite bool_decide_eq_false_2 by exact Hne.
  unfold _check_contraindications. rewrite Hcl. simpl.
  destruct (check_conditions_blocked cl _ c Hc Hin) as (c' & H1 & H2 & ->).
  exists c'. by repeat split.
Qed.

Lemma evaluate_pose_score_bounds (pose : string) (lm : gmap string point)
    (ja : gmap string Q) (rules : gmap string rule_value) (res : evaluation) :
  RuleEngine.evaluate_pose pose lm ja rules = Return res →
  (0 <= RuleEngine.alignment_score res)%Q ∧
  (RuleEngine.alignment_score res <= 100)%Q.
Proof.
  intros H.
  destruct (evaluate_pose_shape _ _ _ _ _ H)
    as (k & a & e & b & h & c & _ & _ & _ & _ & _ & _ & _ & _ & ->).
  destruct k, a, e, b, h, c; vm_compute; split; discriminate.
Qed.

Lemma validate_angles_out_of_range (angles : gmap string Q) (k : string) (v : Q) :
  angles !! k = Some v → (v < 0)%Q ∨ (180 < v)%Q →
  PhysicsEngine.validate_angles angles = false.
Proof.
  intros Hk Hout. apply not_true_is_false. intros Hval.
  unfold PhysicsEngine.validate_angles in Hval.
  apply validate_items_true in Hval.
  rewrite Forall_forall in Hval.
  specialize (Hval (k, v)). simpl in Hval.
  destruct Hval as [H0 H180]; [by apply elem_of_map_to_list|].
  destruct Hout as [Hlt | Hlt]; eapply Qlt_not_le; eauto.
Qed.

(** Every response of the pipeline fits the response model: the score
    lies between 0 and 100 and the risk level is low, medium or high.
    The risk level is medium exactly for the error responses, which
    carry the pose name [unknown], the single issue [evaluation_error]
    and score 0; every other response carries the requested pose
    name. *)
Theorem response_is_well_formed (self : StatelessSessionManager)
    (pose : string) (angles : gmap string Q) (landmarks : gmap string point)
    (user_profile : UserProfile) :
  (0 <= alignment_score
          (evaluate_pose self pose angles landmarks user_profile))%Q ∧
  (alignment_score
     (evaluate_pose self pose angles landmarks user_profile) <= 100)%Q ∧
  risk_level (evaluate_pose self pose angles landmarks user_profile)
    ∈ ["low"; "medium"; "high"] ∧
  (pose_detected (evaluate_pose self pose angles landmarks user_profile) = false
     ↔ risk_level (evaluate_pose self pose angles landmarks user_profile)
       = "medium") ∧
  (pose_detected (evaluate_pose self pose angles landmarks user_profile) = false →
     pose_name (evaluate_pose self pose angles landmarks user_profile)
       = "unknown" ∧
     issues (evaluate_pose self pose angles landmarks user_profile)
       = ["evaluation_error"] ∧
     alignment_score (evaluate_pose self pose angles landmarks user_profile)
       == 0) ∧
  (pose_detected (evaluate_pose self pose angles landmarks user_profile) = true →
     pose_name (evaluate_pose self pose angles landmarks user_profile) = pose).
Proof.
  assert (Herr : ∀ msg,
    (0 <= alignment_score (_error_response msg))%Q ∧
    (alignment_score (_error_response msg) <= 100)%Q ∧
    risk_level (_error_response msg) ∈ ["low"; "medium"; "high"] ∧
    (pose_detected (_error_response msg) = false
       ↔ risk_level (_error_response msg) = "medium") ∧
    (pose_detected (_error_response msg) = false →
       pose_name (_error_response msg) = "unknown" ∧
       issues (_error_response msg) = ["evaluation_error"] ∧
       alignment_score (_error_response msg) == 0) ∧
    (pose_detected (_error_response msg) = true →
       pose_name (_error_response msg) = pose)).
  { intros msg. simpl. repeat split; try discriminate.
    rewrite !elem_of_cons. tauto. }
  unfold evaluate_pose, evaluate_pose_body.
  destruct (PhysicsEngine.validate_angles angles);
    [|exact (Herr "Invalid joint angles")].
  cbn [negb].
  destruct (get_pose_rules (rule_engine self) pose) as [base|];
    [|exact (Herr "Internal evaluation error")].
  rewrite bind_Return.
  case_bool_decide; [exact (Herr ("Pose '" +:+ pose +:+ "' not found"))|].
  rewrite adapt_rules_risk_level.
  destruct (pose_allowed _) eqn:Hallowed; cbn [negb].
  - destruct (RuleEngine.evaluate_pose _ _ _ _) as [res|] eqn:Hres;
      [|exact (Herr "Internal evaluation error")].
    rewrite bind_Return. simpl.
    destruct (evaluate_pose_score_bounds _ _ _ _ _ Hres) as [H0 H100].
    repeat split; try assumption; try discriminate.
    rewrite !elem_of_cons. tauto.
  - simpl. repeat split; try discriminate.
    rewrite !elem_of_cons. tauto.
Qed.

(** A contraindicated pose is stopped before the rule engine: for valid
    angles and a pose with rules, the response is the refusal with
    score 0, the single issue [pose_contraindicated], risk ["high"] and
    the refusal reason as coaching sentence, and it is the same for all
    valid angles and all landmarks. *)
Theorem contraindicated_pose_never_evaluated (self : StatelessSessionManager)
    (pose : string) (angles : gmap string Q) (landmarks : gmap string point)
    (user_profile : UserProfile) (base : gmap string rule_value)
    (pd : pose_data) (cl : list string) (c : string) :
  PhysicsEngine.validate_angles angles = true →
  get_pose_rules (rule_engine self) pose = Return base → base ≠ ∅ →
  safety_engine self !! pose = Some pd →
  pd !! "contraindications" = Some cl →
  c ∈ conditions user_profile → c ∈ cl →
  (∃ c', c' ∈ conditions user_profile ∧ c' ∈ cl ∧
         evaluate_pose self pose angles landmarks user_profile =
           Response pose true 0 ["pose_contraindicated"]
             ("Pose contraindicated due to " +:+ c') "high") ∧
  (∀ angles' landmarks',
     PhysicsEngine.validate_angles angles' = true →
     evaluate_pose self pose angles' landmarks' user_profile =
       evaluate_pose self pose angles landmarks user_profile).
Proof.
  intros Hval Hbase Hne Hpd Hcl Hc Hin.
  destruct (adapt_rules_refused (safety_engine self) pose base
              (new_manager user_profile) pd cl c Hpd Hcl Hc Hin)
    as (c' & Hc' & Hin' & Hrefused).
  assert (Hform : ∀ angles' landmarks',
    PhysicsEngine.validate_angles angles' = true →
    evaluate_pose self pose angles' landmarks' user_profile =
      Response pose true 0 ["pose_contraindicated"]
        ("Pose contraindicated due to " +:+ c') "high").
  { intros angles' landmarks' Hval'.
    unfold evaluate_pose, evaluate_pose_body. rewrite Hval'. simpl.
    rewrite Hbase, bind_Return.
    rewrite bool_decide_eq_false_2 by exact Hne.
    rewrite Hrefused. reflexivity. }
  split.
  - exists c'. repeat split; try assumption. by apply Hform.
  - intros angles' landmarks' Hval'. by rewrite !Hform.
Qed.

(** The two early exits: an angle outside 0..180 gives the error
    response [Invalid joint angles] whatever the pose and the knowledge
    bases; valid angles for a pose without rules give the error
    response [Pose '<name>' not found]. *)
Theorem early_error_responses (self : StatelessSessionManager)
    (pose : string) (angles : gmap string Q) (landmarks : gmap string point)
    (user_profile : UserProfile) :
  ((∃ k v, angles !! k = Some v ∧ ((v < 0)%Q ∨ (180 < v)%Q)) →
     evaluate_pose self pose angles landmarks user_profile =
       _error_response "Invalid joint angles") ∧
  (PhysicsEngine.validate_angles angles = true →
   get_pose_rules (rule_engine self) pose = Return ∅ →
     evaluate_pose self pose angles landmarks user_profile =
       _error_response ("Pose '" +:+ pose +:+ "' not found")).
Proof.
  split.
  - intros (k & v & Hk & Hout).
    unfold evaluate_pose, evaluate_pose_body.
    by rewrite (validate_angles_out_of_range angles k v Hk Hout).
  - intros Hval Hrules. unfold evaluate_pose, evaluate_pose_body.
    rewrite Hval. simpl. rewrite Hrules, bind_Return.
    by rewrite bool_decide_eq_true_2.
Qed.

(** A missing knee angle is not skipped by the pipeline: for valid
    angles without [left_knee_angle], an allowed pose whose rules hold
    [knee_angle_min] gets the error response
    [Internal evaluation error]. *)
Theorem missing_angle_gives_internal_error (self : StatelessSessionManager)
    (pose : string) (angles : gmap string Q) (landmarks : gmap string point)
    (user_profile : UserProfile) (base : gmap string rule_value) :
  PhysicsEngine.validate_angles angles = true →
  get_pose_rules (rule_engine self) pose = Return base →
  is_Some (base !! "knee_angle_min") →
  pose_allowed (adapt_rules (safety_engine self) pose base
                  (new_manager user_profile)) = true →
  angles !! "left_knee_angle" = None →
  evaluate_pose self pose angles landmarks user_profile =
    _error_response "Internal evaluation error".
Proof.
  intros Hval Hbase Hknee Hallowed Hmissing.
  assert (Hne : base ≠ ∅).
  { intros ->. destruct Hknee as [x Hx]. by rewrite lookup_empty in Hx. }
  assert (Hk : is_Some (adapted_rules
                          (adapt_rules (safety_engine self) pose base
                             (new_manager user_profile)) !! "knee_angle_min")).
  { destruct (adapt_rules_allowed_cases _ pose base _ Hallowed) as [-> | ->];
      [exact Hknee | by apply fmap_is_Some]. }
  destruct Hk as [thr Hthr].
  unfold evaluate_pose, evaluate_pose_body. rewrite Hval. simpl.
  rewrite Hbase, bind_Return.
  rewrite bool_decide_eq_false_2 by exact Hne.
  rewrite Hallowed. simpl.
  unfold RuleEngine.evaluate_pose, eval_knees. rewrite Hthr.
  by rewrite (getitem_Raise _ _ Hmissing).
Qed.

Lemma response_is_well_formed_witness :
  pose_name
    (evaluate_pose manager_example "parvatasana"
       {[ "left_knee_angle" := 200%Q ]} ∅ (profile_of "beginner" []))
  = "unknown".
Proof.
  apply (response_is_well_formed manager_example "parvatasana"
           {[ "left_knee_angle" := 200%Q ]} ∅ (profile_of "beginner" [])).
  vm_compute. reflexivity.
Defined.

Lemma contraindicated_pose_never_evaluated_witness :
  ∃ c, evaluate_pose manager_example "parvatasana" one_bent_knee ∅
         (profile_of "beginner" ["high_bp"])
       = Response "parvatasana" true 0 ["pose_contraindicated"]
           ("Pose contraindicated due to " +:+ c) "high".
Proof.
  destruct (contraindicated_pose_never_evaluated manager_example "parvatasana"
              one_bent_knee ∅ (profile_of "beginner" ["high_bp"])
              (_get_default_rules "parvatasana")
              {[ "contraindications" := ["high_bp"; "heart_ailments"] ]}
              ["high_bp"; "heart_ailments"] "high_bp")
    as [(c & _ & _ & Hc) _].
  - vm_compute. reflexivity.
  - apply rules_kb_example_parvatasana.
  - apply default_parvatasana_rules_nonempty.
  - apply lookup_insert_eq.
  - apply lookup_singleton_eq.
  - left.
  - left.
  - exists c. exact Hc.
Defined.

Lemma early_error_responses_witness :
  evaluate_pose manager_example "parvatasana"
    {[ "left_knee_angle" := 200%Q ]} ∅ (profile_of "beginner" [])
  = _error_response "Invalid joint angles".
Proof.
  apply (proj1 (early_error_responses manager_example "parvatasana"
                  {[ "left_knee_angle" := 200%Q ]} ∅
                  (profile_of "beginner" []))).
  exists "left_knee_angle", 200%Q. split; [apply lookup_singleton_eq|].
  right. reflexivity.
Defined.

Lemma missing_angle_witness :
  evaluate_pose manager_example "parvatasana" ∅ ∅ (profile_of "beginner" [])
  = _error_response "Internal evaluation error".
Proof.
  apply (missing_angle_gives_internal_error manager_example "parvatasana"
           ∅ ∅ (profile_of "beginner" []) (_get_default_rules "parvatasana")).
  - vm_compute. reflexivity.
  - apply rules_kb_example_parvatasana.
  - eexists. vm_compute. reflexivity.
  - vm_compute. reflexivity.
  - apply lookup_empty.
Defined.

(** Where the coaching sentence comes from.  Without issues it is the
    fixed affirmation, with or without an LLM engine.  With an engine
    it is always the engine's sentence: the rule-based branch behind
    the engine's failure is never taken.  Without an engine and with
    issues it is [Pose not found in knowledge base.] for a pose unknown
    to the corrections, and otherwise the first two library phrases of
    the issues joined by a blank, or a fixed sentence when no issue has
    a phrase. *)
Theorem coaching_sentence_sources (self : StatelessSessionManager)
    (pose : string) (issues : list string) :
  (issues = [] →
     _generate_coaching_sentence self pose issues =
       "Excellent alignment. Maintain steady breathing.") ∧
  (∀ engine, llm_coaching_engine self = Some engine →
     generate_coaching engine pose issues "calm" =
       Some (_generate_coaching_sentence self pose issues)) ∧
  (llm_coaching_engine self = None → issues ≠ [] →
     (correction_engine self !! pose = None ∨
      correction_engine self !! pose = Some ∅ →
        _generate_coaching_sentence self pose issues =
          "Pose not found in knowledge base.") ∧
     (∀ pk, correction_engine self !! pose = Some pk → pk ≠ ∅ →
        _generate_coaching_sentence self pose issues =
          match omap (fun i => default ∅ (pk !! "correction_library") !! i)
                     issues with
          | [] => "Focus on your alignment and breathing."
          | phrases => py_join " " (take 2 phrases)
          end)).
Proof.
  split; [|split].
  - intros ->. unfold _generate_coaching_sentence.
    by destruct (llm_coaching_engine self).
  - intros engine Hengine. unfold _generate_coaching_sentence. rewrite Hengine.
    destruct (generate_coaching engine pose issues "calm") as [s|] eqn:Hs;
      [reflexivity|].
    exfalso. unfold generate_coaching in Hs.
    destruct issues as [|i issues]; [discriminate Hs|].
    destruct (chat_completion engine _); [discriminate Hs|].
    destruct (fallback_generation_defined engine
                ((fun issue => default issue (issue_mappings !! issue))
                   <$> take 3 (i :: issues))) as [s Hs'].
    + rewrite length_fmap, length_take. cbn [length]. lia.
    + rewrite Hs' in Hs. discriminate Hs.
  - intros Hnone Hissues. unfold _generate_coaching_sentence. rewrite Hnone.
    unfold _fallback_coaching, CorrectionEngine.generate_corrections.
    destruct issues as [|i issues]; [contradiction|]. split.
    + intros [-> | ->]; [reflexivity|].
      by rewrite bool_decide_eq_true_2.
    + intros pk -> Hne. rewrite bool_decide_eq_false_2 by exact Hne.
      cbn [CorrectionEngine.verbal_corrections].
      rewrite map_issues_omap.
      by destruct (omap _ (i :: issues)).
Qed.

Lemma coaching_sentence_witness :
  _generate_coaching_sentence manager_example "parvatasana" ["knees_bent"]
  = "Pose not found in knowledge base.".
Proof.
  apply (coaching_sentence_sources manager_example "parvatasana" ["knees_bent"]).
  - reflexivity.
  - discriminate.
  - left. apply lookup_empty.
Defined.

End Session.

(** ** Progress tracking: what a session records *)

Section TrackingRecords.
Import ProgressTracker Examples.

Lemma update_left_history (ops : float64_ops) (f : FrameMetrics) (t : tracker) :
  left_angles_history (update ops f t) =
    if bool_decide (filter (key_has "left") (joint_angles f) = ∅)
    then left_angles_history t
    else left_angles_history t ++ [filter (key_has "left") (joint_angles f)].
Proof. reflexivity. Qed.

Lemma update_right_history (ops : float64_ops) (f : FrameMetrics) (t : tracker) :
  right_angles_history (update ops f t) =
    if bool_decide
         (filter (fun kv => ¬ key_has "left" kv ∧ key_has "right" kv)
                 (joint_angles f) = ∅)
    then right_angles_history t
    else right_angles_history t ++
         [filter (fun kv => ¬ key_has "left" kv ∧ key_has "right" kv)
                 (joint_angles f)].
Proof. reflexivity. Qed.

(** Within a session every entry of the left history is non-empty and
    holds only keys containing [left], every entry of the right history
    is non-empty and holds only keys containing [right] and not [left],
    and every recorded angle is an angle of one of the frames.  Neither
    history is longer than the number of frames. *)
Theorem side_histories_hold_their_side (ops : float64_ops)
    (now : Q) (t0 : tracker) (frames : list FrameMetrics) :
  (∀ m, m ∈ left_angles_history (updates ops frames (start_session now t0)) →
     m ≠ ∅ ∧
     ∀ k v, m !! k = Some v →
            contains "left" k = true ∧
            ∃ f, f ∈ frames ∧ joint_angles f !! k = Some v) ∧
  (∀ m, m ∈ right_angles_history (updates ops frames (start_session now t0)) →
     m ≠ ∅ ∧
     ∀ k v, m !! k = Some v →
            contains "right" k = true ∧ contains "left" k = false ∧
            ∃ f, f ∈ frames ∧ joint_angles f !! k = Some v) ∧
  (length (left_angles_history (updates ops frames (start_session now t0)))
     ≤ length frames)%nat ∧
  (length (right_angles_history (updates ops frames (start_session now t0)))
     ≤ length frames)%nat.
Proof.
  induction frames as [|f frames IH] using rev_ind.
  - simpl. split; [|split; [|split; lia]];
      intros m Hm; by apply elem_of_nil in Hm.
  - destruct IH as (IHl & IHr & IHnl & IHnr).
    rewrite updates_snoc, update_left_history, update_right_history.
    rewrite length_app. simpl. split; [|split; [|split]].
    + intros m Hm.
      assert (Hold : m ∈ left_angles_history (updates ops frames (start_session now t0)) →
                m ≠ ∅ ∧
                ∀ k v, m !! k = Some v →
                  contains "left" k = true ∧
                  ∃ f0, f0 ∈ frames ++ [f] ∧ joint_angles f0 !! k = Some v).
      { intros Hin. destruct (IHl m Hin) as [Hne Hkeys]. split; [exact Hne|].
        intros k v Hkv. destruct (Hkeys k v Hkv) as (Hc & f0 & Hf0 & Hj).
        split; [exact Hc|]. exists f0. split; [|exact Hj].
        apply elem_of_app. by left. }
      case_bool_decide as Hempty; [by apply Hold|].
      rewrite elem_of_app, list_elem_of_singleton in Hm.
      destruct Hm as [Hm | ->]; [by apply Hold|].
      split; [exact Hempty|]. intros k v Hkv.
      apply map_lookup_filter_Some in Hkv as [Hj Hc].
      split; [exact Hc|]. exists f. split; [|exact Hj].
      apply elem_of_app. right. left.
    + intros m Hm.
      assert (Hold : m ∈ right_angles_history (updates ops frames (start_session now t0)) →
                m ≠ ∅ ∧
                ∀ k v, m !! k = Some v →
                  contains "right" k = true ∧ contains "left" k = false ∧
                  ∃ f0, f0 ∈ frames ++ [f] ∧ joint_angles f0 !! k = Some v).
      { intros Hin. destruct (IHr m Hin) as [Hne Hkeys]. split; [exact Hne|].
        intros k v Hkv. destruct (Hkeys k v Hkv) as (Hc & Hn & f0 & Hf0 & Hj).
        split; [exact Hc|]. split; [exact Hn|]. exists f0. split; [|exact Hj].
        apply elem_of_app. by left. }
      case_bool_decide as Hempty; [by apply Hold|].
      rewrite elem_of_app, list_elem_of_singleton in Hm.
      destruct Hm as [Hm | ->]; [by apply Hold|].
      split; [exact Hempty|]. intros k v Hkv.
      apply map_lookup_filter_Some in Hkv as [Hj [Hn Hc]].
      split; [exact Hc|]. split; [by apply not_true_is_false|].
      exists f. split; [|exact Hj]. apply elem_of_app. right. left.
    + case_bool_decide; [lia|]. rewrite length_app. simpl. lia.
    + case_bool_decide; [lia|]. rewrite length_app. simpl. lia.
Qed.

Lemma left_only_filter_nonempty :
  filter (key_has "left") (joint_angles left_only_frame) ≠ ∅.
Proof.
  intros H. apply (f_equal (fun m => m !! "left_knee_angle")) in H.
  vm_compute in H. discriminate H.
Qed.

Lemma side_histories_witness :
  contains "left" "left_knee_angle" = true ∧
  ∃ f, f ∈ [left_only_frame] ∧ joint_angles f !! "left_knee_angle" = Some 170%Q.
Proof.
  apply (proj2 (proj1 (side_histories_hold_their_side exact_ops 0 init [left_only_frame])
                  (filter (key_has "left") (joint_angles left_only_frame))
                  ltac:(change (updates exact_ops [left_only_frame] (start_session 0 init))
                          with (update exact_ops left_only_frame (start_session 0 init));
                        rewrite update_left_history;
                        rewrite bool_decide_eq_false_2
                          by apply left_only_filter_nonempty;
                        apply list_elem_of_here))).
  vm_compute. reflexivity.
Defined.

Lemma update_records (ops : float64_ops) (f : FrameMetrics) (t : tracker) :
  alignment_scores (update ops f t) = alignment_scores t ++ [alignment_score f] ∧
  frame_metrics_history (update ops f t) =
    deque_append 1000 (frame_metrics_history t) f ∧
  poses_performed (update ops f t) = {[ pose_name f ]} ∪ poses_performed t ∧
  spine_extensions (update ops f t) =
    match joint_angles f !! "spine_angle" with
    | Some a => spine_extensions t ++ [(180 - a)%Q]
    | None => spine_extensions t
    end.
Proof. repeat split. Qed.

(** What a session has on record after its frames: every alignment
    score in order (the list is not bounded), the last 1000 frames, the
    set of pose names, and one spine extension [180 - spine_angle] for
    every frame that carries a spine angle. *)
Theorem session_records (ops : float64_ops) (now : Q) (t0 : tracker) (frames : list FrameMetrics) :
  alignment_scores (updates ops frames (start_session now t0)) =
    alignment_score <$> frames ∧
  frame_metrics_history (updates ops frames (start_session now t0)) =
    last_n 1000 frames ∧
  (∀ p, p ∈ poses_performed (updates ops frames (start_session now t0)) ↔
        ∃ f, f ∈ frames ∧ pose_name f = p) ∧
  spine_extensions (updates ops frames (start_session now t0)) =
    omap (fun f => (fun a => (180 - a)%Q) <$> joint_angles f !! "spine_angle")
         frames.
Proof.
  induction frames as [|f frames (IHs & IHh & IHp & IHe)] using rev_ind.
  - simpl. repeat split; try reflexivity.
    + intros Hp. by apply elem_of_empty in Hp.
    + intros (f & Hf & _). by apply elem_of_nil in Hf.
  - rewrite updates_snoc.
    destruct (update_records ops f (updates ops frames (start_session now t0)))
      as (-> & -> & -> & ->).
    rewrite IHs, IHh, IHe. split; [by rewrite fmap_app|]. split; [|split].
    + rewrite deque_append_last_n; [|lia|rewrite last_n_length; lia].
      apply last_n_snoc.
    + intros p. rewrite elem_of_union, elem_of_singleton, IHp. split.
      * intros [-> | (f0 & Hf0 & Hp)].
        -- exists f. split; [|reflexivity]. apply elem_of_app. right. left.
        -- exists f0. split; [|exact Hp]. apply elem_of_app. by left.
      * intros (f0 & Hf0 & Hp). apply elem_of_app in Hf0 as [Hf0 | Hf0].
        -- right. by exists f0.
        -- apply list_elem_of_singleton in Hf0 as ->. by left.
    + rewrite omap_app. simpl.
      destruct (joint_angles f !! "spine_angle"); simpl;
        [reflexivity | by rewrite app_nil_r].
Qed.

(** When every frame carries at least one key containing [left] and at
    least one key containing [right] but not [left], both histories
    have one entry per frame, and [compute_stability] is 0 while fewer
    than 10 frames have been recorded. *)
Theorem two_sided_frames_fill_both_histories (ops : float64_ops)
    (now : Q) (t0 : tracker) (frames : list FrameMetrics) :
  (∀ f, f ∈ frames →
     (∃ k, is_Some (joint_angles f !! k) ∧ contains "left" k = true) ∧
     (∃ k, is_Some (joint_angles f !! k) ∧
           contains "left" k = false ∧ contains "right" k = true)) →
  length (left_angles_history (updates ops frames (start_session now t0)))
    = length frames ∧
  length (right_angles_history (updates ops frames (start_session now t0)))
    = length frames ∧
  ((length frames < 10)%nat →
     compute_stability (updates ops frames (start_session now t0)) = 0%Q).
Proof.
  intros Hall.
  assert (Hlen :
    length (left_angles_history (updates ops frames (start_session now t0)))
      = length frames ∧
    length (right_angles_history (updates ops frames (start_session now t0)))
      = length frames).
  { induction frames as [|f frames IH] using rev_ind; [by split|].
    destruct IH as [IHl IHr].
    { intros f0 Hf0. apply Hall. apply elem_of_app. by left. }
    destruct (Hall f) as [(kl & [vl Hvl] & Hkl) (kr & [vr Hvr] & Hnl & Hkr)].
    { apply elem_of_app. right. left. }
    rewrite updates_snoc, update_left_history, update_right_history.
    rewrite !bool_decide_eq_false_2.
    - rewrite !length_app. simpl. lia.
    - intros Hempty.
      assert (Hx : filter (fun kv => ¬ key_has "left" kv ∧ key_has "right" kv)
                     (joint_angles f) !! kr = Some vr).
      { apply map_lookup_filter_Some. split; [exact Hvr|].
        unfold key_has. simpl. split; congruence. }
      rewrite Hempty, lookup_empty in Hx. discriminate Hx.
    - intros Hempty.
      assert (Hx : filter (key_has "left") (joint_angles f) !! kl = Some vl).
      { apply map_lookup_filter_Some. split; [exact Hvl|]. exact Hkl. }
      rewrite Hempty, lookup_empty in Hx. discriminate Hx. }
  destruct Hlen as [Hl Hr]. split; [exact Hl|]. split; [exact Hr|].
  intros Hshort. apply compute_stability_short_left. by rewrite Hl.
Qed.

Lemma two_sided_frames_witness :
  compute_stability
    (updates exact_ops (replicate 3 two_sided_frame) (start_session 0 init)) = 0%Q.
Proof.
  apply (two_sided_frames_fill_both_histories exact_ops 0 init
           (replicate 3 two_sided_frame)).
  - intros f Hf. apply elem_of_replicate in Hf as [-> _]. split.
    + exists "left_knee_angle". split; [|reflexivity].
      eexists. vm_compute. reflexivity.
    + exists "right_knee_angle". split; [|split; reflexivity].
      eexists. vm_compute. reflexivity.
  - rewrite length_replicate. lia.
Defined.

End TrackingRecords.

(** ** Progress tracking: bounds of the statistics *)

Section TrackingBounds.
Import ProgressTracker Examples.
Local Open Scope Q_scope.

Lemma Q_of_nat_pos (n : nat) : (0 < n)%nat → 0 < Q_of_nat n.
Proof.
  intros H. unfold Q_of_nat. change 0 with (inject_Z 0).
  rewrite <- Zlt_Qlt. lia.
Qed.

Lemma Qsum_nonneg (l : list Q) :
  Forall (fun x => 0 <= x) l → 0 <= Qsum l.
Proof.
  induction 1 as [|x l Hx _ IH]; [vm_compute; discriminate|].
  cbn [Qsum foldr]. fold (Qsum l). lra.
Qed.

Lemma np_mean_nonneg (l : list Q) :
  Forall (fun x => 0 <= x) l → 0 <= np_mean l.
Proof.
  intros Hall. pose proof (Qsum_nonneg l Hall) as Hsum.
  destruct l as [|x l]; [vm_compute; discriminate|].
  unfold np_mean. apply Qle_shift_div_l.
  - apply Q_of_nat_pos. simpl. lia.
  - lra.
Qed.

Lemma np_var_nonneg (l : list Q) : 0 <= np_var l.
Proof.
  unfold np_var. cbv zeta. apply np_mean_nonneg.
  apply Forall_fmap, Forall_true.
  intros x. unfold compose. generalize (x - np_mean l). intros d. nra.
Qed.

Lemma side_variances_nonneg (angles_list : list (gmap string Q)) :
  Forall (fun x => 0 <= x) (side_variances angles_list).
Proof.
  apply Forall_forall. intros v Hv. unfold side_variances in Hv.
  apply list_elem_of_omap in Hv as (key & _ & Hkey).
  case_decide; [|discriminate]. injection Hkey as <-. apply np_var_nonneg.
Qed.

Lemma py_round2_bounds (x : Q) :
  0 <= x → x <= 100 → 0 <= py_round2 x ∧ py_round2 x <= 100.
Proof.
  intros H0 H100. unfold py_round2.
  set (y := x * 100). set (f := Qfloor y).
  assert (Hy0 : 0 <= y) by (unfold y; lra).
  assert (Hy1 : y <= 10000) by (unfold y; lra).
  assert (Hf0 : (0 <= f)%Z).
  { change 0%Z with (Qfloor 0). by apply Qfloor_resp_le. }
  assert (Hfy : inject_Z f <= y) by apply Qfloor_le.
  assert (Hf1 : (f <= 10000)%Z).
  { rewrite Zle_Qle. change (inject_Z 10000) with 10000. lra. }
  assert (Hup : ¬ (y - inject_Z f < 1 # 2) → (f + 1 <= 10000)%Z).
  { intros Hr. apply Qnot_lt_le in Hr.
    assert (Hlt : inject_Z f < inject_Z 10000)
      by (change (inject_Z 10000) with 10000; lra).
    rewrite <- Zlt_Qlt in Hlt. lia. }
  assert (Hn : ∀ n : Z, (0 <= n <= 10000)%Z → 0 <= n # 100 ∧ n # 100 <= 100).
  { intros n Hn. unfold Qle. simpl. lia. }
  destruct (Qltb (y - inject_Z f) (1 # 2)) eqn:E1; [apply Hn; lia|].
  assert (Hr : ¬ (y - inject_Z f < 1 # 2)).
  { intros Hlt. apply Qltb_lt in Hlt. congruence. }
  specialize (Hup Hr).
  destruct (Qltb (1 # 2) (y - inject_Z f)); [apply Hn; lia|].
  destruct (Z.even f); apply Hn; lia.
Qed.

(** The stability score always lies between 0 and 100. *)
Theorem compute_stability_range (t : tracker) :
  0 <= compute_stability t ∧ compute_stability t <= 100.
Proof.
  unfold compute_stability.
  case_decide; [split; vm_compute; discriminate|].
  remember (side_variances (last_n 50 (left_angles_history t)) ++
            side_variances (last_n 50 (right_angles_history t))) as vs eqn:Evs.
  assert (Hvs : Forall (fun x => 0 <= x) vs).
  { rewrite Evs. apply Forall_app. split; apply side_variances_nonneg. }
  clear Evs. destruct vs as [|v vs']; [split; vm_compute; discriminate|].
  pose proof (np_mean_nonneg _ Hvs) as Havg.
  apply py_round2_bounds.
  - destruct (Qltb 0 (100 - np_mean (v :: vs'))) eqn:E; [|lra].
    apply Qltb_lt in E. lra.
  - destruct (Qltb 0 (100 - np_mean (v :: vs'))) eqn:E; lra.
Qed.

(** The fatigue flag is up after the frames of a session exactly when
    some update of the session, the 24th or a later one, left a window
    of the last 24 scores that passes the test of the code: the mean of
    its first 12 scores above 70 and the mean of its last 12 scores
    below that mean minus 15, both as computed in float64.  Nothing
    else raises the flag. *)
Theorem fatigue_flag_iff_a_window_triggered (ops : float64_ops)
    (now : Q) (t0 : tracker) (frames : list FrameMetrics) :
  fatigue_detected (updates ops frames (start_session now t0)) = true ↔
  ∃ pre post,
    frames = pre ++ post ∧ (24 ≤ length pre)%nat ∧
    70 < f64_mean ops (take 12 (last_n 24 (alignment_score <$> pre))) ∧
    f64_mean ops (drop 12 (last_n 24 (alignment_score <$> pre))) <
      f64_sub ops
        (f64_mean ops (take 12 (last_n 24 (alignment_score <$> pre)))) 15.
Proof.
  split.
  - induction frames as [|f frames IH] using rev_ind; [discriminate|].
    rewrite updates_snoc, update_fatigue_detected. cbv zeta.
    rewrite <- updates_snoc, fatigue_window_last_24.
    assert (Hold :
      fatigue_detected (updates ops frames (start_session now t0)) = true →
      ∃ pre post,
        frames ++ [f] = pre ++ post ∧ (24 ≤ length pre)%nat ∧
        70 < f64_mean ops (take 12 (last_n 24 (alignment_score <$> pre))) ∧
        f64_mean ops (drop 12 (last_n 24 (alignment_score <$> pre))) <
          f64_sub ops
            (f64_mean ops (take 12 (last_n 24 (alignment_score <$> pre)))) 15).
    { intros Hflag. destruct (IH Hflag) as (pre & post & -> & Hrest).
      exists pre, (post ++ [f]). split; [by rewrite app_assoc | exact Hrest]. }
    case_decide as Hlen; [|exact Hold].
    destruct (Qltb 70 _) eqn:E1; [|exact Hold].
    destruct (Qltb (f64_mean ops (drop 12 _)) _) eqn:E2; [|exact Hold].
    intros _. exists (frames ++ [f]), []. split; [by rewrite app_nil_r|].
    rewrite last_n_length, length_fmap in Hlen.
    split; [lia|]. split; by apply Qltb_lt.
  - intros (pre & post & -> & Hlen & H70 & Hdrop).
    rewrite updates_app. apply fatigue_sticky.
    destruct pre as [|f pre _] using rev_ind; [simpl in Hlen; lia|].
    rewrite updates_snoc, update_fatigue_detected. cbv zeta.
    rewrite <- updates_snoc, fatigue_window_last_24.
    rewrite decide_True by (rewrite last_n_length, length_fmap; lia).
    apply Qltb_lt in H70, Hdrop. rewrite H70, Hdrop. reflexivity.
Qed.

Lemma fatigue_flag_iff_witness :
  fatigue_detected
    (updates exact_ops
       (replicate 12 (score_frame 85) ++ replicate 12 (score_frame 60))
       (start_session 0 init)) = true.
Proof.
  apply (fatigue_flag_iff_a_window_triggered exact_ops 0 init).
  exists (replicate 12 (score_frame 85) ++ replicate 12 (score_frame 60)), [].
  split; [by rewrite app_nil_r|].
  split; [rewrite length_app, !length_replicate; lia|].
  split; vm_compute; reflexivity.
Defined.

End TrackingBounds.
